(** * Document normalisation and retrieval-augmented query pipeline

    A shallow embedding of [data_handler.py] and [pipeline.py].

    Text is modelled as [string] whose characters are the code points
    below 256 (Latin-1): on that range the character classes used by the
    program ([str.isspace] behind [str.strip], [\w] behind [re.sub],
    [str.lower]) are written out exactly as CPython 3 defines them.

    External collaborators (the embedding function, the vector database,
    the language model, the system prompt template) are parameters.
    The file parsers ([fitz], [docx2txt], [python-pptx], [lxml]) are
    modelled by a disk whose files already carry their parsed content. *)

From stdpp Require Import gmap strings list fin_maps.
From Stdlib Require Import Ascii String NArith Bool.

(** ** Python primitives *)

Module Py.

(** Exceptions the program can raise or let escape. *)
Inductive exn :=
| ValueError (msg : string)
| AttributeError
| IndexError
| EOFError
| RuntimeError
| EnvironmentError
| FileNotFoundError (path : string)
| ParseError (path : string).

(** A computation that returns or raises. *)
Inductive result (A : Type) :=
| Ok (a : A)
| Raise (e : exn).
Arguments Ok {A} a.
Arguments Raise {A} e.

Definition bind {A B} (r : result A) (k : A -> result B) : result B :=
  match r with
  | Ok a => k a
  | Raise e => Raise e
  end.

Definition LF : ascii := "010"%char.
Definition nl : string := String LF EmptyString.

Definition code (c : ascii) : N := N_of_ascii c.

Definition between (lo hi : N) (c : ascii) : bool :=
  ((lo <=? code c) && (code c <=? hi))%N.

Definition one_of (l : list N) (c : ascii) : bool :=
  existsb (N.eqb (code c)) l.

(** [str.isspace] on one character (code points below 256). *)
Definition isspace (c : ascii) : bool :=
  between 9 13 c || between 28 32 c || one_of [133; 160]%N c.

(** [str.isalnum] on one character (code points below 256). *)
Definition isalnum (c : ascii) : bool :=
  between 48 57 c || between 65 90 c || between 97 122 c
  || one_of [170; 178; 179; 181; 185; 186]%N c
  || between 188 190 c || between 192 214 c
  || between 216 246 c || between 248 255 c.

(** The class [\w] of [re] on [str] patterns. *)
Definition is_word (c : ascii) : bool :=
  isalnum c || Ascii.eqb c "_".

(** [str.lower] on one character (code points below 256). *)
Definition lower_char (c : ascii) : ascii :=
  if between 65 90 c || between 192 214 c || between 216 222 c
  then ascii_of_N (code c + 32)
  else c.

Fixpoint lower (s : string) : string :=
  match s with
  | EmptyString => EmptyString
  | String c s' => String (lower_char c) (lower s')
  end.

(** [c in chars] for a character and a string. *)
Fixpoint char_in (c : ascii) (chars : string) : bool :=
  match chars with
  | EmptyString => false
  | String d chars' => Ascii.eqb c d || char_in c chars'
  end.

(** The characters of [s] that [keep] accepts, joined in order. *)
Fixpoint filter_chars (keep : ascii -> bool) (s : string) : string :=
  match s with
  | EmptyString => EmptyString
  | String c s' =>
      if keep c then String c (filter_chars keep s')
      else filter_chars keep s'
  end.

(** [str.lstrip()] *)
Fixpoint lstrip (s : string) : string :=
  match s with
  | EmptyString => EmptyString
  | String c s' => if isspace c then lstrip s' else s
  end.

(** [str.rstrip()] *)
Fixpoint rstrip (s : string) : string :=
  match s with
  | EmptyString => EmptyString
  | String c s' =>
      match rstrip s' with
      | EmptyString => if isspace c then EmptyString else String c EmptyString
      | r => String c r
      end
  end.

(** [str.strip()] *)
Definition strip (s : string) : string := rstrip (lstrip s).

(** [s.split(sep)] for a one-character separator. *)
Fixpoint split (sep : ascii) (s : string) : list string :=
  match s with
  | EmptyString => [EmptyString]
  | String c s' =>
      if Ascii.eqb c sep then EmptyString :: split sep s'
      else match split sep s' with
           | h :: t => String c h :: t
           | [] => [String c EmptyString]
           end
  end.

(** [s.split(sep, maxsplit)] for a one-character separator. *)
Fixpoint split_max (sep : ascii) (maxsplit : nat) (s : string) {struct s}
  : list string :=
  match maxsplit, s with
  | O, _ => [s]
  | _, EmptyString => [EmptyString]
  | S k, String c s' =>
      if Ascii.eqb c sep then EmptyString :: split_max sep k s'
      else match split_max sep maxsplit s' with
           | h :: t => String c h :: t
           | [] => [String c EmptyString]
           end
  end.

(** [l[i]] for [i >= 0]. *)
Definition index {A} (l : list A) (i : nat) : result A :=
  match l !! i with
  | Some a => Ok a
  | None => Raise IndexError
  end.

(** [l[-1]] *)
Definition index_last {A} (l : list A) : result A :=
  match last l with
  | Some a => Ok a
  | None => Raise IndexError
  end.

(** [sep.join(l)] *)
Fixpoint join (sep : string) (l : list string) : string :=
  match l with
  | [] => EmptyString
  | [s] => s
  | s :: l' => s +:+ sep +:+ join sep l'
  end.

(** [s in l] for a list of strings. *)
Definition str_in (s : string) (l : list string) : bool :=
  existsb (String.eqb s) l.

(** [str(x)] for a value that is a string or [None]. *)
Definition str_of_opt (o : option string) : string :=
  match o with
  | Some s => s
  | None => "None"
  end.

(** [os.path.join(root, file)] on POSIX for a relative [file]. *)
Definition ends_with_slash (s : string) : bool :=
  match index_last (list_ascii_of_string s) with
  | Ok c => Ascii.eqb c "/"
  | Raise _ => false
  end.

Definition path_join (root file : string) : string :=
  if String.eqb root EmptyString then file
  else if ends_with_slash root then root +:+ file
  else root +:+ "/" +:+ file.

(** [s.rfind(".")], as [None] for -1. *)
Fixpoint rfind_dot (s : string) : option nat :=
  match s with
  | EmptyString => None
  | String c s' =>
      match rfind_dot s' with
      | Some i => Some (S i)
      | None => if Ascii.eqb c "." then Some 0 else None
      end
  end.

(** [Path(p).name] for a path whose last component is a file name. *)
Definition path_name (p : string) : string :=
  match last (split "/" p) with
  | Some n => n
  | None => EmptyString
  end.

(** [Path(p).stem]: the name without its last suffix; a leading or a
    trailing dot does not start a suffix. *)
Definition path_stem (p : string) : string :=
  let name := path_name p in
  match rfind_dot name with
  | Some i =>
      if (0 <? i) && (i <? String.length name - 1)
      then String.substring 0 i name
      else name
  | None => name
  end.

End Py.


(** ** The fragment of [re] behind the two [re.sub] calls of [__clean_pdf] *)

Module Re.
Import Py.

(** Pattern items.  Every [\w+] of the program is parenthesised, so
    [WordPlus] captures a group. *)
Inductive item :=
| Lit (c : ascii)          (* a literal character *)
| WordPlus                 (* a captured, greedy run of word characters *)
| NotBehind (c : ascii)    (* negative lookbehind for one character *)
| NotAhead (c : ascii).    (* negative lookahead for one character *)

(** Replacement templates: literal text and group references. *)
Inductive piece :=
| Text (s : string)
| Group (i : nat).         (* [Group 1] is the first group *)

(** [match_here p prev s] matches [p] at the start of [s], where [prev]
    is the character before [s] in the subject.  It is a backtracking
    matcher: [WordPlus] first tries the longer run and gives characters
    back only if the rest of the pattern fails.  The result is the
    captured groups and the number of characters consumed. *)
Fixpoint match_here (p : list item) (prev : option ascii) (s : string)
  {struct p} : option (list string * nat) :=
  match p with
  | [] => Some ([], 0)
  | Lit c :: p' =>
      match s with
      | String d s' =>
          if Ascii.eqb c d then
            match match_here p' (Some d) s' with
            | Some (gs, n) => Some (gs, S n)
            | None => None
            end
          else None
      | EmptyString => None
      end
  | NotBehind c :: p' =>
      match prev with
      | Some d => if Ascii.eqb c d then None else match_here p' prev s
      | None => match_here p' prev s
      end
  | NotAhead c :: p' =>
      match s with
      | String d _ => if Ascii.eqb c d then None else match_here p' prev s
      | EmptyString => match_here p' prev s
      end
  | WordPlus :: p' =>
      let run :=
        fix run (s : string) : option (string * list string * nat) :=
          match s with
          | String d s' =>
              if is_word d then
                match run s' with
                | Some (w, gs, n) => Some (String d w, gs, S n)
                | None =>
                    match match_here p' (Some d) s' with
                    | Some (gs, n) => Some (String d EmptyString, gs, S n)
                    | None => None
                    end
                end
              else None
          | EmptyString => None
          end in
      match run s with
      | Some (w, gs, n) => Some (w :: gs, n)
      | None => None
      end
  end.

(** The text a template stands for, given the groups of a match. *)
Definition expand_piece (gs : list string) (x : piece) : string :=
  match x with
  | Text s => s
  | Group i => default EmptyString (gs !! pred i)
  end.

Fixpoint expand (repl : list piece) (gs : list string) : string :=
  match repl with
  | [] => EmptyString
  | x :: repl' => expand_piece gs x +:+ expand repl' gs
  end.

(** [re.sub] scans the subject from left to right.  At a position
    outside any earlier match it tries the pattern; on a match it emits
    the replacement and resumes the search after the matched text
    ([skip] counts the matched characters still to pass over);
    otherwise it copies the character.  The patterns of the program
    consume at least one character, so a match of no character is
    treated as no match. *)
Fixpoint sub_from (p : list item) (repl : list piece)
  (prev : option ascii) (skip : nat) (s : string) : string :=
  match s with
  | EmptyString => EmptyString
  | String c s' =>
      match skip with
      | S k => sub_from p repl (Some c) k s'
      | O =>
          match match_here p prev s with
          | Some (gs, S n) =>
              expand repl gs +:+ sub_from p repl (Some c) n s'
          | _ => String c (sub_from p repl (Some c) 0 s')
          end
      end
  end.

(** [re.sub(p, repl, s)] *)
Definition sub (p : list item) (repl : list piece) (s : string) : string :=
  sub_from p repl None 0 s.

End Re.

(** ** Element trees as [lxml.etree] exposes them *)

Module Xml.

(** An element: tag, attributes, the text before its first child, and
    its child elements in document order. *)
#[warnings="-register-all"]
Inductive element :=
| Element (tag : string) (attrib : list (string * string))
    (text : option string) (children : list element).

Definition tag (e : element) : string :=
  match e with Element t _ _ _ => t end.
Definition attrib (e : element) : list (string * string) :=
  match e with Element _ a _ _ => a end.
Definition text (e : element) : option string :=
  match e with Element _ _ x _ => x end.
Definition children (e : element) : list element :=
  match e with Element _ _ _ cs => cs end.

(** [e.get(key)] *)
Fixpoint lookup_attr (key : string) (a : list (string * string))
  : option string :=
  match a with
  | [] => None
  | (k, v) :: a' => if String.eqb k key then Some v else lookup_attr key a'
  end.

Definition get (e : element) (key : string) : option string :=
  lookup_attr key (attrib e).

(** [e.iter()]: the element and its descendants in document order. *)
Fixpoint iter (e : element) : list element :=
  match e with
  | Element _ _ _ cs => e :: flat_map iter cs
  end.

(** The step [.//] of a path: every element below [e]. *)
Definition descendants (e : element) : list element :=
  flat_map iter (children e).

Definition has_tag (t : string) (e : element) : bool :=
  String.eqb (tag e) t.

(** [e.findall(".//t")] *)
Definition findall_desc (t : string) (e : element) : list element :=
  List.filter (has_tag t) (descendants e).

(** [e.find(".//t1/t2")]: the first [t2] child of a [t1] element below
    [e], [None] when there is none. *)
Definition find_desc_child (t1 t2 : string) (e : element)
  : option element :=
  head (flat_map (fun g => List.filter (has_tag t2) (children g))
          (findall_desc t1 e)).

End Xml.

(** ** [data_handler.py] *)

Module DataHandler.
Import Py.

(** What the parsers of the program see in a file. *)
Inductive content :=
| PdfFile (pages : list string)       (* [page.get_text("text")] per page *)
| TxtFile (text : string)             (* [f.read()] *)
| DocxFile (text : string)            (* [docx2txt.process(file)] *)
| PptxFile (slides : list (list (option string)))
    (* per slide, per shape: the text of a shape that has the attribute *)
| NxmlFile (root : Xml.element).      (* [et.parse(file).getroot()] *)

(** A directory tree as [os.walk] lists it: the directories top-down,
    each with its path and its files. *)
Definition tree := list (string * list (string * content)).

Definition dir_paths (d : string * list (string * content))
  : list (string * content) :=
  map (fun f => (path_join d.1 f.1, f.2)) d.2.

(** Every file of the tree with its full path. *)
Definition all_files (t : tree) : list (string * content) :=
  flat_map dir_paths t.

Definition paths (t : tree) : list string := (all_files t).*1.

(** [os.walk(root)], without the sub-directory names. *)
Definition os_walk (t : tree) : list (string * list string) :=
  map (fun d => (d.1, d.2.*1)) t.

(** The content behind a path. *)
Fixpoint assoc {A} (k : string) (l : list (string * A)) : option A :=
  match l with
  | [] => None
  | (k', v) :: l' => if String.eqb k' k then Some v else assoc k l'
  end.

Definition open (t : tree) (path : string) : option content :=
  assoc path (all_files t).

(** [os.remove(path)] *)
Definition os_remove (path : string) (t : tree) : tree :=
  map (fun d =>
         (d.1, List.filter
                 (fun f => negb (String.eqb (path_join d.1 f.1) path)) d.2))
      t.

(** Writing a file of the cleaned-data directory: an existing file of
    that name is overwritten in place, a new one is added. *)
Fixpoint write_file (name text : string) (files : list (string * string))
  : list (string * string) :=
  match files with
  | [] => [(name, text)]
  | (n, x) :: files' =>
      if String.eqb n name then (name, text) :: files'
      else (n, x) :: write_file name text files'
  end.

Section WithEmbedding.

(** [utils.embed_text] and the type of its results. *)
Context {vector : Type}.
Variable embed_text : string -> vector.

(** [const.PATH_TO_CLEANED_DATA] *)
Variable clean_data_path : string.

(** The handler's attributes, the directories it works on and the
    console. *)
Record state := State {
  data : list string;
  data_dict : gmap string string;
  vectorized_data : gmap string vector;
  source : tree;                              (* under [data_path] *)
  cleaned : list (string * string);           (* in [clean_data_path] *)
  vector_file : option (list (string * vector));
    (* [vectorized_data.json]: the members of its JSON object *)
  stdout : list string
}.

Definition set_data (x : list string) (st : state) : state :=
  State x (data_dict st) (vectorized_data st) (source st) (cleaned st)
    (vector_file st) (stdout st).
Definition set_data_dict (x : gmap string string) (st : state) : state :=
  State (data st) x (vectorized_data st) (source st) (cleaned st)
    (vector_file st) (stdout st).
Definition set_vectorized_data (x : gmap string vector) (st : state)
  : state :=
  State (data st) (data_dict st) x (source st) (cleaned st)
    (vector_file st) (stdout st).
Definition set_source (x : tree) (st : state) : state :=
  State (data st) (data_dict st) (vectorized_data st) x (cleaned st)
    (vector_file st) (stdout st).
Definition set_cleaned (x : list (string * string)) (st : state)
  : state :=
  State (data st) (data_dict st) (vectorized_data st) (source st) x
    (vector_file st) (stdout st).
Definition set_vector_file (x : option (list (string * vector)))
  (st : state) : state :=
  State (data st) (data_dict st) (vectorized_data st) (source st)
    (cleaned st) x (stdout st).
Definition print (line : string) (st : state) : state :=
  State (data st) (data_dict st) (vectorized_data st) (source st)
    (cleaned st) (vector_file st) (stdout st ++ [line]).

(** [__init__] on existing directories. *)
Definition init (src : tree) (cl : list (string * string))
  (vf : option (list (string * vector))) : state :=
  State [] ∅ ∅ src cl vf [].

Definition file_types : list string :=
  ["pdf"; "docx"; "txt"; "pptx"; "nxml"].

(** [file.split(".")[-1]] *)
Definition extension (file : string) : string :=
  default EmptyString (last (split "." file)).

(** The body of the inner loop of [load_data]. *)
Definition load_file (root file : string) (st : state) : state :=
  if str_in (extension file) file_types then
    set_data (data st ++ [path_join root file]) st
  else if String.eqb file ".gitkeep" then
    st
  else
    let st := print ("File " +:+ file +:+
                     " is not in the accepted file types. Deleting...") st in
    set_source (os_remove (path_join root file) (source st)) st.

Definition load_dir (st : state) (d : string * list string) : state :=
  foldl (fun st file => load_file d.1 file st)
    (print ("Reading " +:+ d.1 +:+ "...") st) d.2.

(** [load_data].  A walk lists a directory when it reaches it, and
    removing a file changes the listing of its own directory only, so
    the listings are those of the tree the walk starts from. *)
Definition load_data (st : state) : state :=
  foldl load_dir (print "Loading data..." st) (os_walk (source st)).

(** [open(file)] and the parser's view of it. *)
Definition read (t : tree) (file : string) : result content :=
  match open t file with
  | Some c => Ok c
  | None => Raise (FileNotFoundError file)
  end.

(** What an extractor returns: [(title, text)], each possibly [None]. *)
Definition extracted : Type := option string * option string.

(** An extractor reads the file and prints; it touches no attribute of
    the handler.  Its model gives the lines it prints and what it returns
    or raises. *)
Definition extraction : Type := list string * result extracted.

(** The pattern [(\w+)-\n(\w+)] and the pattern [(?<!\n)\n(?!\n)]. *)
Definition hyphen_break : list Re.item :=
  [Re.WordPlus; Re.Lit "-"; Re.Lit LF; Re.WordPlus].
Definition line_wrap : list Re.item :=
  [Re.NotBehind LF; Re.Lit LF; Re.NotAhead LF].

(** The two substitutions of [__clean_pdf]. *)
Definition fix_hyphens (text : string) : string :=
  Re.sub hyphen_break [Re.Group 1; Re.Group 2] text.
Definition unwrap_lines (text : string) : string :=
  Re.sub line_wrap [Re.Text " "] text.

(** The loop over the pages of [__clean_pdf]. *)
Definition pdf_text (pages : list string) : string :=
  foldl (fun text page => text +:+ (page +:+ nl +:+ nl)) EmptyString pages.

Definition __clean_pdf (t : tree) (file : string) : extraction :=
  let log := ["Cleaning " +:+ file +:+ "..."] in
  if negb (String.eqb (lower (extension file)) "pdf") then
    (log, Raise (ValueError ("File " +:+ file +:+
                             " is not a PDF file. Cannot clean as PDF.")))
  else
    (log,
     bind (read t file) (fun c =>
       match c with
       | PdfFile pages =>
           let text := pdf_text pages in
           let text := fix_hyphens text in
           let text := unwrap_lines text in
           let title := path_stem file in
           Ok (Some title, Some text)
       | _ => Raise (ParseError file)
       end)).

Definition __clean_txt (t : tree) (file : string) : extraction :=
  if negb (str_in (extension file) ["txt"; "TXT"]) then
    ([], Raise (ValueError ("File " +:+ file +:+
                            " is not a TXT file. Cannot clean as TXT.")))
  else
    ([],
     bind (read t file) (fun c =>
       match c with
       | TxtFile text =>
           let title := path_stem file in
           Ok (Some title, Some text)
       | _ => Raise (ParseError file)
       end)).

(** [file.split("/")[-1].split(".")[0]] *)
Definition docx_title (file : string) : string :=
  default EmptyString
    (head (split "." (default EmptyString (last (split "/" file))))).

Definition __clean_docx (t : tree) (file : string) : extraction :=
  if negb (str_in (extension file) ["docx"; "DOCX"]) then
    ([], Raise (ValueError ("File " +:+ file +:+
                            " is not a DOCX file. Cannot clean as DOCX.")))
  else
    ([],
     bind (read t file) (fun c =>
       match c with
       | DocxFile text =>
           let title := docx_title file in
           Ok (Some title, Some text)
       | _ => Raise (ParseError file)
       end)).

(** The loops over slides and shapes of [__clean_pptx]. *)
Definition pptx_text (slides : list (list (option string))) : string :=
  foldl (fun text slide =>
           foldl (fun text shape =>
                    match shape with
                    | Some shape_text => text +:+ shape_text
                    | None => text
                    end) text slide)
    EmptyString slides.

Definition __clean_pptx (t : tree) (file : string) : extraction :=
  if negb (str_in (extension file) ["pptx"; "PPTX"]) then
    ([], Raise (ValueError ("File " +:+ file +:+
                            " is not a PPTX file. Cannot clean as PPTX.")))
  else
    ([],
     bind (read t file) (fun c =>
       match c with
       | PptxFile slides =>
           let text := pptx_text slides in
           let title := path_stem file in
           Ok (Some title, Some text)
       | _ => Raise (ParseError file)
       end)).

(** The truth value of [element.text]. *)
Definition truthy (o : option string) : bool :=
  match o with
  | Some s => negb (String.eqb s EmptyString)
  | None => false
  end.

Definition excluded_sec_type : string := "Continuing Education Activity".

(** The loop over the children of one section. *)
Definition nxml_children (text : string) (sec : Xml.element) : string :=
  foldl (fun text element =>
           if String.eqb (Xml.tag element) "title"
              && truthy (Xml.text element) then
             text +:+ (str_of_opt (Xml.text element) +:+ nl)
           else if String.eqb (Xml.tag element) "p"
                   && truthy (Xml.text element) then
             text +:+ (str_of_opt (Xml.text element) +:+ nl)
           else text)
    text (Xml.children sec).

(** The loop over the sections of [__clean_nxml]. *)
Definition nxml_text (root : Xml.element) : string :=
  foldl (fun text sec =>
           match Xml.get sec "sec-type" with
           | Some sec_type =>
               if negb (String.eqb sec_type excluded_sec_type)
               then nxml_children text sec
               else text
           | None => text
           end)
    EmptyString (Xml.findall_desc "sec" root).

(** What [__clean_nxml] does with a parsed document. *)
Definition nxml_extract (file : string) (root : Xml.element) : extraction :=
  match Xml.find_desc_child "title-group" "title" root with
  | None =>
      (["Error extracting title from " +:+ file +:+ ". Skipping..."],
       Ok (None, None))
  | Some title_element =>
      let title := Xml.text title_element in
      let text := nxml_text root in
      if String.eqb text EmptyString then
        (["Error extracting text from " +:+ file +:+ ". Skipping..."],
         Ok (None, None))
      else
        ([], Ok (Some ("StatPearls Chapter: " +:+ str_of_opt title),
                 Some text))
  end.

Definition __clean_nxml (t : tree) (file : string) : extraction :=
  if negb (String.eqb (extension file) "nxml") then
    ([], Raise (ValueError ("File " +:+ file +:+
                            " is not an nxml file. Cannot clean as nxml.")))
  else
    match read t file with
    | Ok (NxmlFile root) => nxml_extract file root
    | Ok _ => ([], Raise (ParseError file))
    | Raise e => ([], Raise e)
    end.

(** The characters removed from a title to name its file: the nine
    characters less-than, greater-than, colon, double quote, slash,
    backslash, bar, question mark and star. *)
Definition invalid_chars : string := "<>:" +:+ String "034" "/\|?*".

(** The title sanitisation of [clean_data]. *)
Definition sanitize (title : string) : string :=
  let safe_title :=
    filter_chars (fun c => negb (char_in c invalid_chars)) title in
  strip safe_title.

(** The extractor [clean_data] picks for a file, [None] when the
    extension is not an accepted one. *)
Definition dispatch (t : tree) (file : string) : option extraction :=
  if str_in (extension file) ["pdf"; "PDF"] then
    Some (__clean_pdf t file)
  else if str_in (extension file) ["txt"; "TXT"] then
    Some (__clean_txt t file)
  else if str_in (extension file) ["docx"; "DOCX"] then
    Some (__clean_docx t file)
  else if str_in (extension file) ["pptx"; "PPTX"] then
    Some (__clean_pptx t file)
  else if String.eqb (extension file) "nxml" then
    Some (__clean_nxml t file)
  else None.

Definition prints (lines : list string) (st : state) : state :=
  foldl (fun st line => print line st) st lines.

(** The body of the loop of [clean_data]. *)
Definition clean_file (st : state) (file : string) : result state :=
  match dispatch (source st) file with
  | None =>
      Ok (print ("File " +:+ file +:+
                 " is not in the accepted file types. " +:+
                 "Should have been deleted... Skipping...") st)
  | Some (log, r) =>
      let st := prints log st in
      bind r (fun '(title, text) =>
        match title, text with
        | Some title, Some text =>
            let st := set_data_dict (<[title := text]> (data_dict st)) st in
            let safe_title := sanitize title in
            Ok (set_cleaned
                  (write_file (safe_title +:+ ".txt") text (cleaned st)) st)
        | _, _ =>
            Ok (print ("Error cleaning " +:+ file +:+ ". Skipping...") st)
        end)
  end.

Definition clean_data (st : state) : result state :=
  foldl (fun r file => bind r (fun st => clean_file st file))
    (Ok (print "Cleaning data..." st)) (data st).

(** The fallback of [vectorize_data]: every file of the cleaned-data
    directory, its stem as title. *)
Definition reload_cleaned (st : state) : state :=
  foldl (fun st f =>
           set_data_dict (<[path_stem f.1 := f.2]> (data_dict st)) st)
    (print ("Reading " +:+ clean_data_path +:+ "...") st)
    (cleaned st).

(** The loop of [vectorize_data] over [data_dict.items()]. *)
Definition vectorize_items (st : state) : state :=
  foldl (fun st item =>
           if String.eqb item.1 ".gitkeep" then st
           else set_vectorized_data
                  (<[item.1 := embed_text item.2]> (vectorized_data st)) st)
    st (map_to_list (data_dict st)).

(** [json.dump] of a dict with string keys: the members of the
    object.  [json.load] reads them back in order, a later member
    replacing an earlier one of the same name. *)
Definition json_dump (d : gmap string vector) : list (string * vector) :=
  map_to_list d.
Definition json_load (members : list (string * vector))
  : gmap string vector :=
  foldl (fun d kv => <[kv.1 := kv.2]> d) ∅ members.

Definition vectorize_data (st : state)
  : result (state * gmap string vector) :=
  let st :=
    if decide (data_dict st = ∅) then
      reload_cleaned
        (print ("Didn't clean data, assuming it's done already " +:+
                "and saved. Loading data...") st)
    else st in
  if decide (data_dict st = ∅) then
    Raise (ValueError "No data to vectorize.")
  else
    let st := print "Vectorizing data..." st in
    let st := vectorize_items st in
    let st := set_vector_file (Some (json_dump (vectorized_data st))) st in
    Ok (st, vectorized_data st).

Definition load_vectorized_data (st : state)
  : result (state * gmap string vector) :=
  match vector_file st with
  | Some members =>
      let st := set_vectorized_data (json_load members) st in
      Ok (st, vectorized_data st)
  | None => Raise (FileNotFoundError "vectorized_data.json")
  end.

End WithEmbedding.
End DataHandler.

(** ** [pipeline.py]: the query loop *)

Module Pipeline.
Import Py.

(** What [vector_db.search] may hand back: a [dict] from composite ids
    to snippets (in insertion order), another mapping object that also
    offers [items()], or a value that is no mapping. *)
Inductive pyval :=
| PyDict (entries : list (string * string))
| PyMapping (entries : list (string * string))
| PyList (l : list string)
| PyStr (s : string)
| PyNone.

(** [v.items()] *)
Definition items (v : pyval) : result (list (string * string)) :=
  match v with
  | PyDict entries => Ok entries
  | PyMapping entries => Ok entries
  | _ => Raise AttributeError
  end.

(** [isinstance(v, dict)] *)
Definition is_dict (v : pyval) : bool :=
  match v with
  | PyDict _ => true
  | _ => false
  end.

(** [title.split("_", 1)[1]] *)
Definition source_name (title : string) : result string :=
  index (split_max "_" 1 title) 1.

(** Console programs: the text written so far is threaded through, and
    a raised exception ends the program with what was written. *)
Definition io (A : Type) : Type := list string -> list string * result A.

#[export] Instance io_ret : MRet io := fun A a out => (out, Ok a).
#[export] Instance io_bind : MBind io := fun A B k m out =>
  match m out with
  | (out', Ok a) => k a out'
  | (out', Raise e) => (out', Raise e)
  end.

Definition raise {A} (e : exn) : io A := fun out => (out, Raise e).
Definition lift {A} (r : result A) : io A := fun out => (out, r).

(** [sys.stdout.write(s)] *)
Definition write (s : string) : io unit := fun out => (out ++ [s], Ok tt).

(** [print(s)] and [print(s, end="")] *)
Definition print (s : string) : io unit := write (s +:+ nl).
Definition print_no_end (s : string) : io unit := write s.

(** [for x in l: body(x)] *)
Fixpoint for_each {A} (l : list A) (body : A -> io unit) : io unit :=
  match l with
  | [] => mret tt
  | x :: l' => body x ;; for_each l' body
  end.

(** [[f(x) for x in l]] *)
Fixpoint comprehension {A B} (f : A -> result B) (l : list A)
  : result (list B) :=
  match l with
  | [] => Ok []
  | x :: l' =>
      Py.bind (f x) (fun y =>
      Py.bind (comprehension f l') (fun ys => Ok (y :: ys)))
  end.

Section WithCollaborators.

(** [vector_db.search] *)
Variable search : string -> pyval.

(** [shutil.which("ollama") is not None] *)
Variable ollama_installed : bool.

(** [ensure_model]: whether the model can be made available. *)
Variable ensure_model : result unit.

(** The HTTP stream of the model for a prompt: the chunks received, and
    the text of the request exception if the request failed (at the start
    or after them). *)
Variable generate : string -> list string * option string.

(** [SYSTEM_PROMPT_TEMPLATE.format(prompt=.., formatted_sources=..)] *)
Variable system_prompt : string -> string -> string.

Definition build_system_prompt (prompt : string)
  (sources : list (string * string)) : string :=
  let formatted_sources :=
    join (nl +:+ nl)
      (map (fun src => "Source " +:+ src.1 +:+ " says ..." +:+ src.2 +:+ "...")
         sources) in
  system_prompt prompt formatted_sources.

(** Consuming [llm(prompt)] with [print(chunk, end="")]. *)
Definition stream_llm (prompt : string) : io unit :=
  lift ensure_model ;;
  print "LLM is preparing it's response..." ;;
  for_each (generate prompt).1 print_no_end ;;
  match (generate prompt).2 with
  | Some e =>
      print ("Error contacting Ollama at http://localhost:11434: " +:+ e) ;;
      print_no_end "[LLM Error: Could not get a response]"
  | None => mret tt
  end.

(** [list(set(l))] *)
Definition distinct (l : list string) : list string :=
  elements (list_to_set l : gset string).

(** One turn of the loop for a query that is not [q]. *)
Definition turn (query : string) : io unit :=
  let context_results := search query in
  entries ← lift (items context_results);
  for_each entries (fun entry =>
    name ← lift (source_name entry.1);
    print ("Source Name: " +:+ name) ;;
    print entry.2 ;;
    print nl) ;;
  if is_dict context_results then
    sources ← lift (comprehension
                      (fun entry =>
                         Py.bind (source_name entry.1) (fun name =>
                         Ok (name, entry.2)))
                      entries);
    let prompt := build_system_prompt query sources in
    print ("Prompt: " +:+ prompt) ;;
    stream_llm prompt ;;
    print (nl +:+ nl +:+ "References pulled:") ;;
    reference_list ← lift (comprehension source_name entries.*1);
    let references := distinct reference_list in
    for_each references (fun ref => print ("- " +:+ ref)) ;;
    print nl
  else
    print "Invalid context format from vector DB. Expected list of dicts.".

(** The loop of [__set_up_and_run_LLM] over the lines typed on the
    console; reading past the last line raises [EOFError]. *)
Fixpoint query_loop (stdin : list string) : io unit :=
  match stdin with
  | [] =>
      write "Enter your question (or type 'q' to quit): " ;;
      raise EOFError
  | line :: stdin' =>
      write "Enter your question (or type 'q' to quit): " ;;
      let query := strip line in
      if String.eqb (lower query) "q" then
        print "Exiting..."
      else
        turn query ;;
        query_loop stdin'
  end.

(** [__set_up_and_run_LLM]: [__get_llm] refuses to start without the
    model runtime; then the loop runs. *)
Definition __set_up_and_run_LLM (stdin : list string) : io unit :=
  if ollama_installed then query_loop stdin
  else raise EnvironmentError.

End WithCollaborators.

Section WithHandler.
Context {vector : Type}.
Variable embed_text : string -> vector.
Variable clean_data_path : string.

(** [__traverse_data_pipeline] on existing directories. *)
Definition __traverse_data_pipeline (src : DataHandler.tree)
  (cl : list (string * string)) (vf : option (list (string * vector)))
  (clean_data vectorize_data : bool) : result DataHandler.state :=
  let data_handler := DataHandler.init src cl vf in
  Py.bind
    (if clean_data
     then DataHandler.clean_data (DataHandler.load_data data_handler)
     else Ok data_handler)
    (fun data_handler =>
       if vectorize_data then
         Py.bind
           (DataHandler.vectorize_data embed_text clean_data_path data_handler)
           (fun r => Ok r.1)
       else
         Py.bind (DataHandler.load_vectorized_data data_handler)
           (fun r => Ok r.1)).

End WithHandler.
End Pipeline.

(** * Properties *)

Import Py.

(** ** Strings: filtering and stripping *)

Section StringFacts.

(** Every character of [s] satisfies [p]. *)
Fixpoint all_chars (p : ascii -> bool) (s : string) : bool :=
  match s with
  | EmptyString => true
  | String c s' => p c && all_chars p s'
  end.

Definition first_char (s : string) : option ascii :=
  match s with
  | EmptyString => None
  | String c _ => Some c
  end.

Fixpoint last_char (s : string) : option ascii :=
  match s with
  | EmptyString => None
  | String c EmptyString => Some c
  | String _ s' => last_char s'
  end.

Definition is_space_opt (o : option ascii) : bool :=
  match o with
  | Some c => isspace c
  | None => false
  end.

Lemma append_nil (s : string) : EmptyString +:+ s = s.
Proof. reflexivity. Qed.

Lemma append_cons c (a s : string) : String c a +:+ s = String c (a +:+ s).
Proof. reflexivity. Qed.

Lemma filter_chars_all p s : all_chars p (filter_chars p s) = true.
Proof.
  induction s as [|c s IH]; simpl; [done|].
  destruct (p c) eqn:Hc; simpl; [by rewrite Hc|done].
Qed.

Lemma filter_chars_id p s : all_chars p s = true → filter_chars p s = s.
Proof.
  induction s as [|c s IH]; simpl; [done|].
  intros [Hc Hs]%andb_prop. rewrite Hc. by rewrite IH.
Qed.

Lemma lstrip_all p s : all_chars p s = true → all_chars p (lstrip s) = true.
Proof.
  induction s as [|c s IH]; simpl; [done|].
  intros H. destruct (isspace c); [|done].
  apply andb_prop in H as [_ H]. by apply IH.
Qed.

Lemma rstrip_all p s : all_chars p s = true → all_chars p (rstrip s) = true.
Proof.
  induction s as [|c s IH]; simpl; [done|].
  intros [Hc Hs]%andb_prop. specialize (IH Hs).
  destruct (rstrip s) as [|d r].
  - destruct (isspace c); simpl; [done|]. by rewrite Hc.
  - simpl in *. by rewrite Hc.
Qed.

Lemma lstrip_first s : is_space_opt (first_char (lstrip s)) = false.
Proof.
  induction s as [|c s IH]; simpl; [done|].
  destruct (isspace c) eqn:Hc; [done|]. simpl. done.
Qed.

Lemma lstrip_id s : is_space_opt (first_char s) = false → lstrip s = s.
Proof. destruct s as [|c s]; simpl; [done|]. by intros ->. Qed.

Lemma rstrip_first s :
  is_space_opt (first_char s) = false →
  is_space_opt (first_char (rstrip s)) = false.
Proof.
  destruct s as [|c s]; simpl; [done|]. intros Hc.
  destruct (rstrip s); [by rewrite Hc|done].
Qed.

Lemma rstrip_idemp s : rstrip (rstrip s) = rstrip s.
Proof.
  induction s as [|c s IH]; simpl; [done|].
  destruct (rstrip s) as [|d r] eqn:Hr.
  - destruct (isspace c) eqn:Hc; simpl; [done|]. by rewrite Hc.
  - change (rstrip (String c (String d r))) with
      (match rstrip (String d r) with
       | EmptyString =>
           if isspace c then EmptyString else String c EmptyString
       | r' => String c r'
       end).
    by rewrite IH.
Qed.

Lemma rstrip_id s : is_space_opt (last_char s) = false → rstrip s = s.
Proof.
  induction s as [|c s IH]; simpl; [done|].
  destruct s as [|d s].
  - simpl. by intros ->.
  - intros H. rewrite (IH H). done.
Qed.

Lemma strip_idemp s : strip (strip s) = strip s.
Proof.
  unfold strip.
  rewrite (lstrip_id (rstrip (lstrip s))).
  - apply rstrip_idemp.
  - apply rstrip_first, lstrip_first.
Qed.

Lemma strip_all p s : all_chars p s = true → all_chars p (strip s) = true.
Proof. intros H. by apply rstrip_all, lstrip_all. Qed.

End StringFacts.

(** ** Title sanitisation *)

Section Sanitize.
Import DataHandler.

(** None of the nine invalid characters. *)
Definition valid_char (c : ascii) : bool := negb (char_in c invalid_chars).

(** A title that is already safe: no invalid character, no white space
    at either end. *)
Definition is_safe_title (s : string) : bool :=
  all_chars valid_char s
  && negb (is_space_opt (first_char s))
  && negb (is_space_opt (last_char s)).

Lemma sanitize_all_valid s : all_chars valid_char (sanitize s) = true.
Proof. apply strip_all, filter_chars_all. Qed.

(** C8.  Sanitising a title (dropping the invalid characters, then
    stripping white space at both ends) twice is the same as once, and it
    leaves an already safe title unchanged. *)
Theorem C8_sanitize_idempotent :
  (∀ s, sanitize (sanitize s) = sanitize s)
  ∧ (∀ s, is_safe_title s = true → sanitize s = s).
Proof.
  split.
  - intros s.
    pose proof (filter_chars_id _ _ (sanitize_all_valid s)) as E.
    unfold sanitize at 1. unfold valid_char in E. rewrite E.
    apply strip_idemp.
  - intros s. unfold is_safe_title.
    intros [[Hv Hf%negb_true_iff]%andb_prop Hl%negb_true_iff]%andb_prop.
    pose proof (filter_chars_id _ _ Hv) as E.
    unfold sanitize. unfold valid_char in E. rewrite E.
    unfold strip. rewrite (lstrip_id s Hf). by apply rstrip_id.
Qed.

Lemma C8_sanitize_idempotent_witness :
  is_safe_title "Thyroid Cancer (2nd ed.)" = true
  ∧ sanitize "Thyroid Cancer (2nd ed.)" = "Thyroid Cancer (2nd ed.)".
Proof.
  split; [reflexivity|].
  apply (proj2 C8_sanitize_idempotent). reflexivity.
Defined.

End Sanitize.


(** ** Discovery: [load_data] *)

Section Discovery.
Import DataHandler.
Context {vector : Type}.
Implicit Types (st : @state vector) (t : tree) (d : string * list string).

Lemma split_nonempty sep s : split sep s ≠ [].
Proof.
  destruct s as [|c s]; simpl; [done|].
  destruct (Ascii.eqb c sep); [done|]. by destruct (split sep s).
Qed.

Lemma split_no_sep sep s :
  char_in sep (String sep EmptyString) = true →
  all_chars (fun c => negb (Ascii.eqb c sep)) s = true → split sep s = [s].
Proof.
  intros _. induction s as [|c s IH]; simpl; [done|].
  intros [Hc Hs]%andb_prop. apply negb_true_iff in Hc. rewrite Hc.
  by rewrite (IH Hs).
Qed.

Lemma last_split_cons sep c s :
  Ascii.eqb c sep = true →
  last (split sep (String c s)) = last (split sep s).
Proof.
  intros Hc. simpl. rewrite Hc.
  destruct (split sep s) eqn:E; [by apply split_nonempty in E|done].
Qed.

Lemma last_split_app sep a b :
  last (split sep (a +:+ String sep b)) = last (split sep b).
Proof.
  induction a as [|c a IH]; rewrite ?append_nil, ?append_cons.
  - apply last_split_cons, Ascii.eqb_refl.
  - destruct (Ascii.eqb c sep) eqn:Hc.
    + by rewrite last_split_cons.
    + simpl. rewrite Hc.
      destruct (split sep (a +:+ String sep b)) as [|h tl] eqn:E;
        [by apply split_nonempty in E|].
      destruct tl as [|h' tl].
      * (* a single part would hold the separator *)
        exfalso. clear IH.
        assert (Hlen : ∀ x, List.length (split sep (x +:+ String sep b)) ≥ 2).
        { clear. induction x as [|c x IHx]; rewrite ?append_nil, ?append_cons.
          - simpl. rewrite Ascii.eqb_refl. simpl.
            pose proof (split_nonempty sep b).
            destruct (split sep b); [done|simpl; lia].
          - simpl. destruct (Ascii.eqb c sep); simpl.
            + pose proof (split_nonempty sep (x +:+ String sep b)).
              destruct (split sep (x +:+ String sep b)); [done|simpl; lia].
            + destruct (split sep (x +:+ String sep b)) as [|? [|? ?]];
                simpl in *; lia. }
        specialize (Hlen a). rewrite E in Hlen. simpl in Hlen. lia.
      * rewrite <- IH. done.
Qed.

(** The extension of a name without a dot is the whole name; otherwise it
    is what follows the last dot. *)
Definition no_dot (s : string) : bool :=
  all_chars (fun c => negb (Ascii.eqb c ".")) s.

Lemma extension_no_dot s : no_dot s = true → extension s = s.
Proof.
  intros H. unfold extension. by rewrite (split_no_sep "." s eq_refl H).
Qed.

Lemma extension_after_dot a b :
  no_dot b = true → extension (a +:+ String "." b) = b.
Proof.
  intros H. unfold extension. rewrite last_split_app.
  by rewrite (split_no_sep "." b eq_refl H).
Qed.

(** How [load_data] treats a file name. *)
Definition keeps (file : string) : bool :=
  str_in (extension file) file_types.
Definition deletes (file : string) : bool :=
  negb (keeps file) && negb (String.eqb file ".gitkeep").

Definition kept_in (d : string * list string) : list string :=
  map (path_join d.1) (List.filter keeps d.2).
Definition deleted_in (d : string * list string) : list string :=
  map (path_join d.1) (List.filter deletes d.2).

Definition remove_all (t : tree) (ps : list string) : tree :=
  foldl (fun t p => os_remove p t) t ps.

Lemma load_dir_effect st d :
  data (load_dir st d) = data st ++ kept_in d
  ∧ source (load_dir st d) = remove_all (source st) (deleted_in d)
  ∧ data_dict (load_dir st d) = data_dict st
  ∧ vectorized_data (load_dir st d) = vectorized_data st.
Proof.
  destruct d as [root files]. unfold load_dir, kept_in, deleted_in. simpl.
  set (st0 := print _ st).
  change (data st) with (data st0). change (source st) with (source st0).
  change (data_dict st) with (data_dict st0).
  change (vectorized_data st) with (vectorized_data st0).
  clearbody st0. clear st.
  revert st0. induction files as [|f files IH]; intros st; simpl.
  { by rewrite app_nil_r. }
  destruct (IH (load_file root f st)) as (Hd & Hs & Hdd & Hv).
  rewrite Hd, Hs, Hdd, Hv. clear IH Hd Hs Hdd Hv.
  unfold load_file, deletes, keeps.
  destruct (str_in (extension f) file_types); simpl.
  - by rewrite <- app_assoc.
  - destruct (String.eqb f ".gitkeep"); simpl; done.
Qed.

Lemma remove_all_app t ps qs :
  remove_all t (ps ++ qs) = remove_all (remove_all t ps) qs.
Proof. unfold remove_all. by rewrite foldl_app. Qed.

Lemma load_dirs_effect st (w : list (string * list string)) :
  data (foldl load_dir st w) = data st ++ flat_map kept_in w
  ∧ source (foldl load_dir st w)
    = remove_all (source st) (flat_map deleted_in w)
  ∧ data_dict (foldl load_dir st w) = data_dict st
  ∧ vectorized_data (foldl load_dir st w) = vectorized_data st.
Proof.
  revert st. induction w as [|d w IH]; intros st; simpl.
  { by rewrite app_nil_r. }
  destruct (IH (load_dir st d)) as (Hd & Hs & Hdd & Hv).
  destruct (load_dir_effect st d) as (Hd' & Hs' & Hdd' & Hv').
  rewrite Hd, Hs, Hdd, Hv, Hd', Hs', Hdd', Hv'.
  by rewrite <- app_assoc, remove_all_app.
Qed.

(** The paths [load_data] keeps and the paths it removes. *)
Definition kept_paths (t : tree) : list string :=
  flat_map kept_in (os_walk t).
Definition deleted_paths (t : tree) : list string :=
  flat_map deleted_in (os_walk t).

Lemma load_data_effect st :
  data (load_data st) = data st ++ kept_paths (source st)
  ∧ source (load_data st) = remove_all (source st) (deleted_paths (source st))
  ∧ data_dict (load_data st) = data_dict st
  ∧ vectorized_data (load_data st) = vectorized_data st.
Proof. unfold load_data. apply (load_dirs_effect (print _ st)). Qed.

(** *** Removing files *)

Lemma all_files_remove q t :
  all_files (os_remove q t)
  = List.filter (fun pf => negb (String.eqb pf.1 q)) (all_files t).
Proof.
  unfold all_files, os_remove.
  induction t as [|[root files] t IH]; simpl; [done|].
  rewrite List.filter_app, IH. f_equal.
  unfold dir_paths. simpl. clear IH.
  induction files as [|[n c] files IH]; simpl; [done|].
  destruct (String.eqb (path_join root n) q); simpl; by rewrite IH.
Qed.

Lemma assoc_filter_ne {A} q k (l : list (string * A)) :
  assoc k (List.filter (fun pf => negb (String.eqb pf.1 q)) l)
  = if String.eqb k q then None else assoc k l.
Proof.
  induction l as [|[k' v] l IH]; simpl.
  { by destruct (String.eqb k q). }
  destruct (String.eqb k' q) eqn:E1; simpl.
  - rewrite IH. destruct (String.eqb k q) eqn:E2; [done|].
    destruct (String.eqb k' k) eqn:E3; [|done].
    apply String.eqb_eq in E1, E3. subst. by rewrite String.eqb_refl in E2.
  - destruct (String.eqb k' k) eqn:E3.
    + apply String.eqb_eq in E3. subst. by rewrite E1.
    + apply IH.
Qed.

Lemma open_remove q t p :
  open (os_remove q t) p = if String.eqb p q then None else open t p.
Proof. unfold open. rewrite all_files_remove. apply assoc_filter_ne. Qed.

Lemma open_remove_all t ps p :
  open (remove_all t ps) p = if str_in p ps then None else open t p.
Proof.
  revert t. induction ps as [|q ps IH]; intros t; simpl; [done|].
  rewrite IH, open_remove. by destruct (String.eqb p q), (str_in p ps).
Qed.

Lemma str_in_In s l : str_in s l = true ↔ In s l.
Proof.
  unfold str_in. rewrite existsb_exists. split.
  - intros (x & Hx & E). apply String.eqb_eq in E. by subst.
  - intros H. exists s. split; [done|apply String.eqb_refl].
Qed.

Lemma assoc_in_nodup {A} k v (l : list (string * A)) :
  NoDup l.*1 → In (k, v) l → assoc k l = Some v.
Proof.
  induction l as [|[k' v'] l IH]; simpl; [done|].
  intros [Hk Hl]%NoDup_cons [E|Hin].
  - inversion E; subst. by rewrite String.eqb_refl.
  - destruct (String.eqb k' k) eqn:E.
    + apply String.eqb_eq in E. subst. exfalso. apply Hk.
      apply list_elem_of_In, in_map_iff. by exists (k, v).
    + by apply IH.
Qed.

(** *** Each path of a well-formed tree names one file *)

Definition names_by_path (t : tree) : list (string * string) :=
  flat_map (fun dir => map (fun f => (path_join dir.1 f.1, f.1)) dir.2) t.

Lemma names_by_path_fst t : (names_by_path t).*1 = paths t.
Proof.
  unfold names_by_path, paths, all_files.
  induction t as [|[root files] t IH]; simpl; [done|].
  rewrite !fmap_app, IH. f_equal. unfold dir_paths. simpl.
  clear. induction files as [|[n c] files IH]; [done|].
  cbn. f_equal. exact IH.
Qed.

Lemma in_all_files t root files name c :
  In (root, files) t → In (name, c) files →
  In (path_join root name, c) (all_files t).
Proof.
  intros Hd Hf. apply in_flat_map. exists (root, files). split; [done|].
  apply in_map_iff. by exists (name, c).
Qed.

Lemma in_names_by_path t root files name c :
  In (root, files) t → In (name, c) files →
  In (path_join root name, name) (names_by_path t).
Proof.
  intros Hd Hf. apply in_flat_map. exists (root, files). split; [done|].
  apply in_map_iff. by exists (name, c).
Qed.

Lemma in_walk_paths (sel : string → bool) t p :
  In p (flat_map (fun d => map (path_join d.1) (List.filter sel d.2))
          (os_walk t))
  ↔ ∃ name, In (p, name) (names_by_path t) ∧ sel name = true.
Proof.
  unfold os_walk, names_by_path. rewrite in_flat_map. split.
  - intros ([root names] & Hd & Hp). simpl in Hp.
    apply in_map_iff in Hp as (name & <- & [Hn Hs]%filter_In).
    apply in_map_iff in Hd as ([root' files] & E & Hd). simpl in E.
    inversion E; subst. clear E.
    apply list_elem_of_In, list_elem_of_fmap in Hn as ([n c] & -> & Hf).
    exists n. split; [|done]. apply in_flat_map.
    exists (root, files). split; [done|]. apply in_map_iff.
    exists (n, c). split; [done|]. by apply list_elem_of_In.
  - intros (name & Hin & Hs).
    apply in_flat_map in Hin as ([root files] & Hd & Hf). simpl in Hf.
    apply in_map_iff in Hf as ([n c] & E & Hf). simpl in E.
    inversion E; subst. clear E.
    exists (root, files.*1). split.
    + apply in_map_iff. by exists (root, files).
    + simpl. apply in_map_iff. exists name. split; [done|].
      apply filter_In. split; [|done].
      apply list_elem_of_In, list_elem_of_fmap. exists (name, c).
      split; [done|]. by apply list_elem_of_In.
Qed.

Lemma selected_path_iff (sel : string → bool) t root files name c :
  NoDup (paths t) → In (root, files) t → In (name, c) files →
  In (path_join root name)
    (flat_map (fun d => map (path_join d.1) (List.filter sel d.2))
       (os_walk t))
  ↔ sel name = true.
Proof.
  intros Hnd Hd Hf. rewrite in_walk_paths.
  pose proof (in_names_by_path _ _ _ _ _ Hd Hf) as Hin.
  rewrite <- names_by_path_fst in Hnd. split.
  - intros (name' & Hin' & Hs).
    pose proof (assoc_in_nodup _ _ _ Hnd Hin) as E1.
    pose proof (assoc_in_nodup _ _ _ Hnd Hin') as E2.
    congruence.
  - intros Hs. by exists name.
Qed.

(** What [load_data] does with one file of a tree whose paths are
    distinct, started with an empty list of data paths. *)
Lemma load_data_file st root files name c :
  NoDup (paths (source st)) → data st = [] →
  In (root, files) (source st) → In (name, c) files →
  let p := path_join root name in
  (In p (data (load_data st)) ↔ keeps name = true)
  ∧ open (source (load_data st)) p
    = if deletes name then None else Some c.
Proof.
  intros Hnd Hdata Hd Hf p.
  destruct (load_data_effect st) as (-> & -> & _). rewrite Hdata. simpl.
  split.
  - exact (selected_path_iff keeps _ _ _ _ _ Hnd Hd Hf).
  - rewrite open_remove_all.
    assert (Hdel : In p (deleted_paths (source st)) ↔ deletes name = true)
      by exact (selected_path_iff deletes _ _ _ _ _ Hnd Hd Hf).
    rewrite <- str_in_In in Hdel.
    destruct (deletes name).
    + by rewrite (proj2 Hdel eq_refl).
    + destruct (str_in p (deleted_paths (source st))).
      * by apply proj1 in Hdel; specialize (Hdel eq_refl).
      * apply assoc_in_nodup; [done|]. eapply in_all_files; eauto.
Qed.

Lemma no_dot_not_gitkeep name :
  no_dot name = true → String.eqb name ".gitkeep" = false.
Proof.
  intros H. destruct (String.eqb name ".gitkeep") eqn:E; [|done].
  apply String.eqb_eq in E. subst. discriminate H.
Qed.

(** C10.  [load_data] decides on a file by what follows the last dot of
    its name, and by the whole name when there is no dot.  In a tree whose
    paths are distinct, a file without a dot in its name is kept (listed
    in [data] and left on disk) when its name is one of the accepted
    extensions and removed otherwise; a name with a dot is treated
    according to the part after its last dot ([.gitkeep] apart); so a file
    named [pdf] and a file named [.txt] are both kept. *)
Theorem C10_classified_by_last_dot
  (st : @state vector) root files name c :
  NoDup (paths (source st)) → data st = [] →
  In (root, files) (source st) → In (name, c) files →
  let p := path_join root name in
  let kept :=
    In p (data (load_data st)) ∧ open (source (load_data st)) p = Some c in
  let deleted :=
    ¬ In p (data (load_data st)) ∧ open (source (load_data st)) p = None in
  (no_dot name = true → if str_in name file_types then kept else deleted)
  ∧ (∀ a b, name = a +:+ String "." b → no_dot b = true →
            name ≠ ".gitkeep" →
            if str_in b file_types then kept else deleted)
  ∧ (name = "pdf" → kept)
  ∧ (name = ".txt" → kept).
Proof.
  intros Hnd Hdata Hd Hf p kept deleted.
  destruct (load_data_file st root files name c Hnd Hdata Hd Hf)
    as [Hin Hopen].
  fold p in Hin, Hopen.
  assert (Hcase : ∀ ext, extension name = ext →
                         String.eqb name ".gitkeep" = false →
                         if str_in ext file_types then kept else deleted).
  { intros ext Hext Hgit. unfold kept, deleted.
    rewrite Hopen. unfold deletes. rewrite Hgit.
    assert (Hk : keeps name = str_in ext file_types)
      by (unfold keeps; by rewrite Hext).
    rewrite Hk. destruct (str_in ext file_types); simpl.
    - split; [by apply Hin|done].
    - split; [|done]. intros H. apply Hin in H. congruence. }
  split; [|split; [|split]].
  - intros Hno. apply Hcase;
      [by apply extension_no_dot | by apply no_dot_not_gitkeep].
  - intros a b -> Hb Hne. apply Hcase; [by apply extension_after_dot|].
    by apply String.eqb_neq.
  - intros ->. by apply (Hcase "pdf").
  - intros ->. by apply (Hcase "txt").
Qed.

End Discovery.

Section DiscoveryExamples.
Import DataHandler.

(** A data folder with a file named [pdf], a file without extension and
    a hidden [.txt]. *)
Definition dotless_files : list (string * content) :=
  [("pdf", TxtFile "x"); ("README", TxtFile "y");
   (".txt", TxtFile "z"); (".gitkeep", TxtFile EmptyString)].
Definition dotless_tree : tree := [("data", dotless_files)].
Definition dotless_state : @state unit := init dotless_tree [] None.

Lemma C10_classified_by_last_dot_witness :
  let st' := load_data dotless_state in
  In "data/README" (paths (source dotless_state))
  ∧ ¬ In "data/README" (data st')
  ∧ open (source st') "data/README" = None.
Proof.
  assert (Hnd : NoDup (paths (source dotless_state))).
  { apply (bool_decide_unpack _). vm_compute. exact I. }
  assert (Hd : In ("data", dotless_files) (source dotless_state)).
  { simpl. by left. }
  assert (Hf : In ("README", TxtFile "y") dotless_files).
  { simpl. right. by left. }
  pose proof (C10_classified_by_last_dot dotless_state "data" dotless_files
                "README" (TxtFile "y") Hnd eq_refl Hd Hf) as (H & _).
  specialize (H eq_refl). simpl in H. split; [|exact H].
  simpl. right. by left.
Defined.

(** A data folder holding a PDF whose extension is in upper case. *)
Definition upper_tree : tree :=
  [("data", [("a.pdf", PdfFile ["A"]); ("Report.PDF", PdfFile ["B"]);
             ("b.exe", TxtFile "x"); (".gitkeep", TxtFile EmptyString)])].
Definition upper_state : @state unit := init upper_tree [] None.

(** C2, at a PDF named [Report.PDF].  [load_data] compares the extension
    with the lower-case list, so the file is not listed and is removed from
    disk, although [clean_data] sends a path ending in [.PDF] to the PDF
    extractor and [__clean_pdf] accepts it after lowering the extension.
    On the same folder [a.pdf] is kept, [.gitkeep] stays on disk and
    [b.exe] is removed. *)
Theorem C2_upper_case_extension_deleted :
  let st' := load_data upper_state in
  data st' = ["data/a.pdf"]
  ∧ paths (source st') = ["data/a.pdf"; "data/.gitkeep"]
  ∧ open (source st') "data/Report.PDF" = None
  ∧ (∀ t, dispatch t "data/Report.PDF" = Some (__clean_pdf t "data/Report.PDF"))
  ∧ lower (extension "data/Report.PDF") = "pdf".
Proof. vm_compute. repeat split. Qed.

End DiscoveryExamples.

(** ** Cleaning: [clean_data] *)

Section Cleaning.
Import DataHandler.
Context {vector : Type}.
Implicit Types (st : @state vector) (t : tree).

(** The title and text [clean_data] goes on with for a file: those of an
    extraction that returned both. *)
Definition outcome (t : tree) (file : string) : option (string * string) :=
  match dispatch t file with
  | Some (_, Ok (Some title, Some text)) => Some (title, text)
  | _ => None
  end.

(** The extractor picked for the file raises. *)
Definition raises (t : tree) (file : string) : bool :=
  match dispatch t file with
  | Some (_, Raise _) => true
  | _ => false
  end.

Definition record (m : gmap string string) (o : option (string * string))
  : gmap string string :=
  match o with
  | Some (title, text) => <[title := text]> m
  | None => m
  end.

Definition store (files : list (string * string))
  (o : option (string * string)) : list (string * string) :=
  match o with
  | Some (title, text) => write_file (sanitize title +:+ ".txt") text files
  | None => files
  end.

Lemma prints_fields log st :
  data (prints log st) = data st
  ∧ data_dict (prints log st) = data_dict st
  ∧ vectorized_data (prints log st) = vectorized_data st
  ∧ source (prints log st) = source st
  ∧ cleaned (prints log st) = cleaned st
  ∧ vector_file (prints log st) = vector_file st.
Proof.
  unfold prints. revert st.
  induction log as [|line log IH]; intros st; simpl; [done|].
  destruct (IH (print line st)) as (-> & -> & -> & -> & -> & ->). done.
Qed.

Lemma clean_file_effect st file :
  raises (source st) file = false →
  ∃ st', clean_file st file = Ok st'
    ∧ data_dict st' = record (data_dict st) (outcome (source st) file)
    ∧ cleaned st' = store (cleaned st) (outcome (source st) file)
    ∧ source st' = source st
    ∧ vectorized_data st' = vectorized_data st.
Proof.
  unfold raises, clean_file, outcome.
  destruct (dispatch (source st) file) as [[log r]|]; [|by eexists].
  destruct (prints_fields log st) as (_ & Hdd & Hv & Hs & Hc & _).
  destruct r as [[title text]|e]; [|done]. intros _. simpl.
  destruct title as [title|], text as [text|]; eexists; (split; [done|]);
    simpl; rewrite ?Hdd, ?Hc, ?Hs, ?Hv; done.
Qed.

Definition clean_files (r : result (@state vector)) (files : list string)
  : result state :=
  foldl (fun r file => bind r (fun st => clean_file st file)) r files.

Lemma clean_files_effect files st :
  (∀ file, In file files → raises (source st) file = false) →
  ∃ st', clean_files (Ok st) files = Ok st'
    ∧ data_dict st'
      = foldl (fun m f => record m (outcome (source st) f))
          (data_dict st) files
    ∧ cleaned st'
      = foldl (fun fs f => store fs (outcome (source st) f))
          (cleaned st) files
    ∧ source st' = source st
    ∧ vectorized_data st' = vectorized_data st.
Proof.
  revert st. induction files as [|file files IH]; intros st Hok; simpl.
  { by eexists. }
  destruct (clean_file_effect st file) as (st1 & -> & Hdd & Hc & Hs & Hv).
  { apply Hok. by left. }
  destruct (IH st1) as (st' & -> & Hdd' & Hc' & Hs' & Hv').
  { intros f Hf. rewrite Hs. apply Hok. by right. }
  exists st'. rewrite Hdd', Hc', Hs', Hv', Hdd, Hc, Hs, Hv. done.
Qed.

Lemma clean_data_effect st :
  (∀ file, In file (data st) → raises (source st) file = false) →
  ∃ st', clean_data st = Ok st'
    ∧ data_dict st'
      = foldl (fun m f => record m (outcome (source st) f))
          (data_dict st) (data st)
    ∧ cleaned st'
      = foldl (fun fs f => store fs (outcome (source st) f))
          (cleaned st) (data st)
    ∧ source st' = source st
    ∧ vectorized_data st' = vectorized_data st.
Proof.
  intros Hok. unfold clean_data.
  apply (clean_files_effect (data st) (print "Cleaning data..." st) Hok).
Qed.

(** *** The mapping after a run of records *)



Lemma record_run_keys (out : string → option (string * string)) files m k :
  is_Some (foldl (fun m f => record m (out f)) m files !! k)
  ↔ is_Some (m !! k) ∨ ∃ f text, In f files ∧ out f = Some (k, text).
Proof.
  revert m. induction files as [|f files IH]; intros m; simpl.
  { split; [by left|]. intros [H|(f & x & [] & _)]. done. }
  rewrite IH. destruct (out f) as [[title text]|] eqn:E; simpl.
  - rewrite lookup_insert_is_Some. split.
    + intros [[->|[_ H]]|(f' & x & Hf' & E')].
      * right. exists f, text. split; [by left|done].
      * by left.
      * right. exists f', x. split; [by right|done].
    + intros [H|(f' & x & [->|Hf'] & E')].
      * left. destruct (decide (title = k)); [by left|by right].
      * left. left. congruence.
      * right. by exists f', x.
  - split.
    + intros [H|(f' & x & Hf' & E')]; [by left|].
      right. exists f', x. split; [by right|done].
    + intros [H|(f' & x & [->|Hf'] & E')]; [by left|congruence|].
      right. by exists f', x.
Qed.

(** *** The cleaned-data directory after a run of writes *)



Lemma all_chars_app p (a b : string) :
  all_chars p (a +:+ b) = all_chars p a && all_chars p b.
Proof.
  induction a as [|c a IH]; [done|].
  rewrite append_cons. simpl. by rewrite IH, andb_assoc.
Qed.

Lemma assoc_write name n x (files : list (string * string)) :
  assoc name (write_file n x files)
  = if String.eqb n name then Some x else assoc name files.
Proof.
  induction files as [|[n' x'] files IH]; simpl.
  { done. }
  destruct (String.eqb n' n) eqn:E; simpl.
  - apply String.eqb_eq in E. subst n'.
    by destruct (String.eqb n name).
  - destruct (String.eqb n' name) eqn:E'.
    + apply String.eqb_eq in E'. subst n'.
      rewrite String.eqb_sym in E. by rewrite E.
    + apply IH.
Qed.








End Cleaning.

Section CleaningExamples.
Import DataHandler.

(** Two text files whose names differ by a colon. *)
Definition colon_tree : tree :=
  [("data", [("n:1.txt", TxtFile "first"); ("n1.txt", TxtFile "second")])].



(** An empty text file next to an article whose sections are all of the
    excluded type. *)
Definition empty_article : Xml.element :=
  Xml.Element "article" []
    None
    [Xml.Element "title-group" [] None
       [Xml.Element "title" [] (Some "Asthma") []];
     Xml.Element "sec" [("sec-type", "Continuing Education Activity")] None
       [Xml.Element "p" [] (Some "Objectives") []]].
Definition empty_tree : tree :=
  [("data", [("empty.txt", TxtFile EmptyString);
             ("asthma.nxml", NxmlFile empty_article)])].
Definition empty_state : @state unit := load_data (init empty_tree [] None).

(** C4, at an empty text file.  [__clean_txt] returns the empty text, the
    test of [clean_data] only catches [None], and the file is recorded
    with an empty text and written out; the article next to it, whose
    text is empty as well, is skipped, because [__clean_nxml] turns an
    empty text into [None]. *)
Theorem C4_empty_txt_recorded :
  ∃ st', clean_data empty_state = Ok st'
    ∧ data (empty_state) = ["data/empty.txt"; "data/asthma.nxml"]
    ∧ data_dict st' !! "empty" = Some EmptyString
    ∧ size (data_dict st') = 1
    ∧ cleaned st' = [("empty.txt", EmptyString)]
    ∧ __clean_nxml (source empty_state) "data/asthma.nxml"
      = (["Error extracting text from data/asthma.nxml. Skipping..."],
         Ok (None, None)).
Proof.
  eexists. split; [vm_compute; reflexivity|].
  vm_compute. repeat split.
Qed.

End CleaningExamples.

(** ** The substitutions of [__clean_pdf] *)

Section Substitutions.
Import DataHandler Re.

(** The run of [WordPlus], named: the longest run first, shorter ones
    only when the rest of the pattern fails after it. *)
Definition word_run (p' : list item)
  : string → option (string * list string * nat) :=
  fix run (s : string) : option (string * list string * nat) :=
    match s with
    | String d s' =>
        if is_word d then
          match run s' with
          | Some (w, gs, n) => Some (String d w, gs, S n)
          | None =>
              match match_here p' (Some d) s' with
              | Some (gs, n) => Some (String d EmptyString, gs, S n)
              | None => None
              end
          end
        else None
    | EmptyString => None
    end.

Lemma word_run_cons p' d s' :
  word_run p' (String d s')
  = if is_word d then
      match word_run p' s' with
      | Some (w, gs, n) => Some (String d w, gs, S n)
      | None =>
          match match_here p' (Some d) s' with
          | Some (gs, n) => Some (String d EmptyString, gs, S n)
          | None => None
          end
      end
    else None.
Proof. reflexivity. Qed.

Lemma match_here_word_plus p' prev s :
  match_here (WordPlus :: p') prev s
  = match word_run p' s with
    | Some (w, gs, n) => Some (w :: gs, n)
    | None => None
    end.
Proof. reflexivity. Qed.

Lemma match_here_lit c p' prev s :
  match_here (Lit c :: p') prev (String c s)
  = match match_here p' (Some c) s with
    | Some (gs, n) => Some (gs, S n)
    | None => None
    end.
Proof. simpl. by rewrite Ascii.eqb_refl. Qed.




(** The rest of the hyphen pattern after its first run. *)
Definition break_tail : list item := [Lit "-"; Lit LF; WordPlus].

(** The text starts with a hyphen, a newline and a word character. *)
Definition starts_with_break (s : string) : bool :=
  match s with
  | String a (String b (String c _)) =>
      Ascii.eqb a "-" && Ascii.eqb b LF && is_word c
  | _ => false
  end.

Lemma break_tail_none prev s :
  starts_with_break s = false → match_here break_tail prev s = None.
Proof.
  destruct s as [|a [|b [|c s]]]; cbn -[Ascii.eqb is_word]; try done.
  - by destruct (Ascii.eqb "-" a).
  - destruct (Ascii.eqb "-" a); [|done]. by destruct (Ascii.eqb LF b).
  - rewrite (Ascii.eqb_sym a "-"), (Ascii.eqb_sym b LF).
    destruct (Ascii.eqb "-" a); [|done].
    destruct (Ascii.eqb LF b); [|done]. cbn -[is_word]. by intros ->.
Qed.





(** *** The scan of [re.sub] *)

Lemma append_assoc (a b c : string) : (a +:+ b) +:+ c = a +:+ (b +:+ c).
Proof.
  induction a as [|x a IH]; [done|]. rewrite !append_cons. by rewrite IH.
Qed.

Lemma append_nil_r (a : string) : a +:+ EmptyString = a.
Proof. induction a as [|x a IH]; [done|]. rewrite append_cons. by rewrite IH. Qed.

Lemma length_append (a b : string) :
  String.length (a +:+ b) = String.length a + String.length b.
Proof.
  induction a as [|x a IH]; [done|]. rewrite append_cons. simpl. by rewrite IH.
Qed.

Lemma sub_from_no_match p repl prev c s :
  match_here p prev (String c s) = None →
  sub_from p repl prev 0 (String c s)
  = String c (sub_from p repl (Some c) 0 s).
Proof. intros H. simpl. by rewrite H. Qed.




Definition joined : list piece := [Group 1; Group 2].




(** *** Line wraps *)

Definition is_lf (o : option ascii) : bool :=
  match o with
  | Some c => Ascii.eqb c LF
  | None => false
  end.

(** A newline with no newline before it and none after it. *)
Definition isolated_newline (prev : option ascii) (c : ascii)
  (next : option ascii) : bool :=
  Ascii.eqb c LF && negb (is_lf prev) && negb (is_lf next).

Definition spaced : list piece := [Text " "].

Lemma wrap_step prev c s :
  sub_from line_wrap spaced prev 0 (String c s)
  = String (if isolated_newline prev c (first_char s) then " "%char else c)
      (sub_from line_wrap spaced (Some c) 0 s).
Proof.
  unfold isolated_newline, is_lf.
  destruct prev as [d|]; destruct s as [|e s];
    cbn -[Ascii.eqb sub_from];
    rewrite ?(Ascii.eqb_sym c LF), ?(Ascii.eqb_sym d LF),
      ?(Ascii.eqb_sym e LF);
    repeat match goal with
      | |- context [Ascii.eqb LF ?x] => destruct (Ascii.eqb LF x) eqn:?
      end;
    cbn -[Ascii.eqb]; rewrite ?Heqb, ?Heqb0, ?Heqb1; try reflexivity.
Qed.




(** *** Pages *)





End Substitutions.

(** ** NXML extraction *)

Section Nxml.
Import DataHandler.

(** The strings of a list, one after the other. *)
Definition concat_all (l : list string) : string :=
  foldr String.append EmptyString l.

(** A section that declares a type other than the excluded one. *)
Definition qualifies (sec : Xml.element) : bool :=
  match Xml.get sec "sec-type" with
  | Some sec_type => negb (String.eqb sec_type excluded_sec_type)
  | None => false
  end.

(** What a child of a section contributes: its text and a newline when
    it is a [title] or a [p] that has text, nothing otherwise. *)
Definition child_line (e : Xml.element) : string :=
  match Xml.text e with
  | Some s =>
      if (String.eqb (Xml.tag e) "title" || String.eqb (Xml.tag e) "p")
         && negb (String.eqb s EmptyString)
      then s +:+ nl
      else EmptyString
  | None => EmptyString
  end.

Definition section_text (sec : Xml.element) : string :=
  concat_all (map child_line (Xml.children sec)).

(** The text of a document, section by section in document order. *)
Definition document_text (root : Xml.element) : string :=
  concat_all
    (map section_text (List.filter qualifies (Xml.findall_desc "sec" root))).

Lemma nxml_children_spec acc sec :
  nxml_children acc sec = acc +:+ section_text sec.
Proof.
  unfold nxml_children, section_text.
  revert acc. induction (Xml.children sec) as [|e es IH]; intros acc; simpl.
  { by rewrite append_nil_r. }
  rewrite IH. rewrite <- (append_assoc acc (child_line e)). f_equal.
  unfold child_line, truthy.
  destruct (Xml.text e) as [s|]; simpl.
  - destruct (String.eqb (Xml.tag e) "title"),
      (String.eqb (Xml.tag e) "p"), (String.eqb s EmptyString);
      simpl; by rewrite ?append_nil_r.
  - rewrite !andb_false_r. by rewrite append_nil_r.
Qed.

Lemma nxml_sections_spec acc (secs : list Xml.element) :
  foldl (fun text sec =>
           match Xml.get sec "sec-type" with
           | Some sec_type =>
               if negb (String.eqb sec_type excluded_sec_type)
               then nxml_children text sec
               else text
           | None => text
           end) acc secs
  = acc +:+ concat_all (map section_text (List.filter qualifies secs)).
Proof.
  revert acc. induction secs as [|sec secs IH]; intros acc; simpl.
  { by rewrite append_nil_r. }
  rewrite IH. unfold qualifies at 2.
  destruct (Xml.get sec "sec-type") as [ty|]; [|done].
  destruct (negb (String.eqb ty excluded_sec_type)); [|done].
  simpl. by rewrite nxml_children_spec, append_assoc.
Qed.

Lemma nxml_text_spec root : nxml_text root = document_text root.
Proof. unfold nxml_text. by rewrite nxml_sections_spec, append_nil. Qed.





End Nxml.

(** ** Vectorising and loading back *)

Section Vectorize.
Import DataHandler.
Context {vector : Type}.
Variable embed_text : string → vector.
Variable clean_data_path : string.
Implicit Types (st : @state vector).

(** One step of the loop over the items of the mapping. *)
Definition embed_item (vd : gmap string vector) (item : string * string)
  : gmap string vector :=
  if String.eqb item.1 ".gitkeep" then vd
  else <[item.1 := embed_text item.2]> vd.

Lemma vectorize_items_from (items : list (string * string)) st :
  vectorized_data
    (foldl (fun st item =>
              if String.eqb item.1 ".gitkeep" then st
              else set_vectorized_data
                     (<[item.1 := embed_text item.2]> (vectorized_data st))
                     st)
       st items)
  = foldl embed_item (vectorized_data st) items.
Proof.
  revert st. induction items as [|item items IH]; intros st; simpl; [done|].
  rewrite IH. f_equal. unfold embed_item.
  by destruct (String.eqb item.1 ".gitkeep").
Qed.

Lemma assoc_not_in {A} k (l : list (string * A)) :
  k ∉ l.*1 → assoc k l = None.
Proof.
  induction l as [|[k' x] l IH]; [done|].
  rewrite fmap_cons, not_elem_of_cons. intros [Hne Hl]. simpl.
  destruct (String.eqb k' k) eqn:E; [|by apply IH].
  apply String.eqb_eq in E. by subst.
Qed.

Lemma embed_items_lookup (items : list (string * string))
  (vd : gmap string vector) k :
  NoDup items.*1 →
  foldl embed_item vd items !! k
  = match assoc k items with
    | Some text =>
        if String.eqb k ".gitkeep" then vd !! k else Some (embed_text text)
    | None => vd !! k
    end.
Proof.
  revert vd. induction items as [|[k' text'] items IH]; intros vd Hnd;
    [done|].
  rewrite fmap_cons in Hnd. apply NoDup_cons in Hnd as [Hk' Hnd].
  cbn [fst] in Hk'. cbn [foldl assoc]. rewrite (IH _ Hnd).
  unfold embed_item. cbn [fst snd].
  destruct (String.eqb k' k) eqn:E.
  - apply String.eqb_eq in E. subst k'.
    rewrite (assoc_not_in _ _ Hk').
    destruct (String.eqb k ".gitkeep"); [done|]. apply lookup_insert_eq.
  - apply String.eqb_neq in E.
    destruct (String.eqb k' ".gitkeep"); [done|].
    rewrite lookup_insert_ne by done. done.
Qed.

Lemma assoc_map_to_list (m : gmap string string) k :
  assoc k (map_to_list m) = m !! k.
Proof.
  destruct (m !! k) as [text|] eqn:E.
  - apply assoc_in_nodup; [apply NoDup_fst_map_to_list|].
    by apply list_elem_of_In, elem_of_map_to_list.
  - destruct (assoc k (map_to_list m)) as [text|] eqn:E'; [|done].
    exfalso.
    assert (Hin : ∀ (l : list (string * string)),
               assoc k l = Some text → (k, text) ∈ l).
    { clear. induction l as [|[k' x] l IH]; simpl; [done|].
      destruct (String.eqb k' k) eqn:E.
      - apply String.eqb_eq in E. subst. intros [= ->]. by left.
      - intros H. right. by apply IH. }
    apply Hin, elem_of_map_to_list in E'. congruence.
Qed.

(** What the loop of [vectorize_data] leaves under each title. *)
Lemma vectorize_items_lookup st k :
  vectorized_data (vectorize_items embed_text st) !! k
  = match data_dict st !! k with
    | Some text =>
        if String.eqb k ".gitkeep" then vectorized_data st !! k
        else Some (embed_text text)
    | None => vectorized_data st !! k
    end.
Proof.
  unfold vectorize_items. rewrite vectorize_items_from.
  rewrite embed_items_lookup; [|apply NoDup_fst_map_to_list].
  by rewrite assoc_map_to_list.
Qed.




(** The pipeline hands [vectorize_data] such a handler: [load_data] and
    [clean_data] leave the embedding mapping as [__init__] made it. *)
Lemma clean_file_keeps_vectors st file st' :
  clean_file st file = Ok st' → vectorized_data st' = vectorized_data st.
Proof.
  unfold clean_file.
  destruct (dispatch (source st) file) as [[log r]|]; [|by intros [= <-]].
  destruct (prints_fields log st) as (_ & _ & Hv & _).
  destruct r as [[title text]|e]; [|done]. simpl.
  destruct title as [title|], text as [text|]; intros [= <-]; simpl;
    by rewrite Hv.
Qed.

Lemma clean_files_keep_vectors files (r : result (@state vector)) st' :
  clean_files r files = Ok st' →
  ∃ st, r = Ok st ∧ vectorized_data st' = vectorized_data st.
Proof.
  revert r. induction files as [|file files IH]; intros r H; simpl in H.
  { by exists st'. }
  apply IH in H as (st1 & H1 & Hv).
  destruct r as [st|e]; [|done]. simpl in H1.
  exists st. split; [done|]. rewrite Hv.
  by apply (clean_file_keeps_vectors st file).
Qed.

Lemma pipeline_cleans_to_fresh_vectors src cl vf st' :
  clean_data (load_data (init (vector:=vector) src cl vf)) = Ok st' →
  vectorized_data st' = ∅.
Proof.
  intros H. apply clean_files_keep_vectors in H as (st & [= <-] & ->).
  simpl. by destruct (load_data_effect (init (vector:=vector) src cl vf))
    as (_ & _ & _ & ->).
Qed.

End Vectorize.

Section VectorizeExamples.
Import DataHandler.



End VectorizeExamples.

(** ** The query loop *)

Section QueryLoop.
Import Pipeline.
Variable search : string → pyval.
Variable ensure_model : result unit.
Variable generate : string → list string * option string.
Variable system_prompt : string → string → string.

Lemma io_bind_ok {A B} (m : io A) (k : A → io B) out out' a :
  m out = (out', Ok a) → mbind k m out = k a out'.
Proof. intros H. unfold mbind, io_bind. by rewrite H. Qed.

Lemma io_bind_raise {A B} (m : io A) (k : A → io B) out out' e :
  m out = (out', Raise e) → mbind k m out = (out', Raise e).
Proof. intros H. unfold mbind, io_bind. by rewrite H. Qed.

Lemma print_out s out : print s out = (out ++ [s +:+ nl], Ok tt).
Proof. reflexivity. Qed.

(** A loop whose body only writes. *)
Lemma for_each_writes {A} (l : list A) (body : A → io unit)
  (lines : A → list string) out :
  (∀ x out, In x l → body x out = (out ++ lines x, Ok tt)) →
  for_each l body out = (out ++ flat_map lines l, Ok tt).
Proof.
  revert out. induction l as [|x l IH]; intros out Hbody; simpl.
  { by rewrite app_nil_r. }
  erewrite io_bind_ok; [|apply Hbody; by left].
  rewrite IH; [|intros y out' Hy; apply Hbody; by right].
  by rewrite app_assoc.
Qed.

Lemma comprehension_ok {A B} (f : A → result B) l ys :
  comprehension f l = Ok ys ↔ Forall2 (fun x y => f x = Ok y) l ys.
Proof.
  revert ys. induction l as [|x l IH]; intros ys; simpl.
  - split; [intros [= <-]; constructor|]. by intros ->%Forall2_nil_inv_l.
  - destruct (f x) as [y|e] eqn:Hx; simpl.
    + destruct (comprehension f l) as [ys'|e] eqn:Hl; simpl.
      * split.
        -- intros [= <-]. constructor; [done|]. by apply IH.
        -- intros H. inversion H as [|? y' ? ys2 Hy Hys]; subst.
           apply IH in Hys. congruence.
      * split; [done|]. intros H.
        inversion H as [|? y' ? ys2 Hy Hys]; subst.
        apply IH in Hys. done.
    + split; [done|]. intros H.
      inversion H as [|? y' ? ys2 Hy Hys]; subst. congruence.
Qed.

(** *** Source names *)

Definition no_underscore (s : string) : bool :=
  all_chars (fun c => negb (Ascii.eqb c "_")) s.

Lemma split_first_underscore pre post :
  no_underscore pre = true →
  split_max "_" 1 (pre +:+ String "_" post) = [pre; post].
Proof.
  induction pre as [|c pre IH]; intros H.
  - rewrite append_nil. simpl. by destruct post.
  - simpl in H. apply andb_prop in H as [Hc H].
    apply negb_true_iff in Hc.
    rewrite append_cons. simpl. rewrite Hc.
    by rewrite (IH H).
Qed.

Lemma source_name_no_underscore title :
  no_underscore title = true → source_name title = Raise IndexError.
Proof.
  intros H. unfold source_name.
  assert (E : split_max "_" 1 title = [title]).
  { induction title as [|c title IH]; [done|].
    simpl in H. apply andb_prop in H as [Hc H].
    apply negb_true_iff in Hc. simpl. rewrite Hc. by rewrite (IH H). }
  by rewrite E.
Qed.

Lemma source_name_after_underscore pre post :
  no_underscore pre = true →
  source_name (pre +:+ String "_" post) = Ok post.
Proof.
  intros H. unfold source_name. by rewrite split_first_underscore.
Qed.

(** *** References *)

Lemma distinct_nodup l : NoDup (distinct l).
Proof. unfold distinct. apply NoDup_elements. Qed.

Lemma distinct_elem r l : r ∈ distinct l ↔ r ∈ l.
Proof. unfold distinct. by rewrite elem_of_elements, elem_of_list_to_set. Qed.

Lemma nodup_count_once (r : string) (l : list string) :
  NoDup l → r ∈ l → List.length (List.filter (String.eqb r) l) = 1.
Proof.
  induction l as [|x l IH]; [by intros _ ?%elem_of_nil|].
  intros [Hx Hl]%NoDup_cons Hr. simpl.
  destruct (String.eqb r x) eqn:E.
  - apply String.eqb_eq in E. subst x. simpl. f_equal.
    clear IH Hr Hl. induction l as [|y l IH]; [done|].
    apply not_elem_of_cons in Hx as [Hne Hx]. simpl.
    destruct (String.eqb r y) eqn:E; [|by apply IH].
    apply String.eqb_eq in E. by subst.
  - apply String.eqb_neq in E. apply elem_of_cons in Hr as [->|Hr]; [done|].
    by apply IH.
Qed.

(** *** One turn on a dict *)

(** What the turn prints for one entry, given its source name. *)
Definition shown (entry : string * string) : list string :=
  [("Source Name: " +:+ entry.1) +:+ nl; entry.2 +:+ nl; nl +:+ nl].

(** What consuming the stream of the model prints. *)
Definition streamed (prompt : string) : list string :=
  ["LLM is preparing it's response..." +:+ nl]
  ++ (generate prompt).1
  ++ match (generate prompt).2 with
     | Some e =>
         [("Error contacting Ollama at http://localhost:11434: " +:+ e)
            +:+ nl;
          "[LLM Error: Could not get a response]"]
     | None => []
     end.

(** The reference list as printed. *)
Definition reference_lines (names : list string) : list string :=
  [(nl +:+ nl +:+ "References pulled:") +:+ nl]
  ++ map (fun ref => ("- " +:+ ref) +:+ nl) (distinct names)
  ++ [nl +:+ nl].

Definition named (entries : list (string * string)) (names : list string)
  : Prop :=
  Forall2 (fun entry name => source_name entry.1 = Ok name) entries names.

Lemma show_entries entries names out :
  named entries names →
  for_each entries
    (fun entry =>
       name ← lift (source_name entry.1);
       print ("Source Name: " +:+ name) ;;
       print entry.2 ;;
       print nl) out
  = (out ++ flat_map shown (zip names entries.*2), Ok tt).
Proof.
  intros H. revert out.
  induction H as [|[title text] name entries names Hn H IH]; intros out.
  { simpl. by rewrite app_nil_r. }
  cbn [for_each]. simpl in Hn.
  erewrite io_bind_ok; cycle 1.
  { erewrite io_bind_ok; [|unfold lift; cbn [fst]; by rewrite Hn].
    erewrite io_bind_ok; [|apply print_out].
    erewrite io_bind_ok; [|apply print_out].
    apply print_out. }
  rewrite IH. simpl. by rewrite <- !app_assoc.
Qed.

Lemma sources_of entries names :
  named entries names →
  comprehension
    (fun entry =>
       Py.bind (source_name entry.1) (fun name => Ok (name, entry.2)))
    entries
  = Ok (zip names entries.*2).
Proof.
  induction 1 as [|[title text] name entries names Hn H IH]; [done|].
  simpl in *. by rewrite Hn, IH.
Qed.

Lemma reference_list_of entries names :
  named entries names → comprehension source_name entries.*1 = Ok names.
Proof.
  induction 1 as [|[title text] name entries names Hn H IH]; [done|].
  rewrite fmap_cons. cbn [comprehension fst] in *. by rewrite Hn, IH.
Qed.

Lemma stream_llm_ok prompt out :
  ensure_model = Ok tt →
  stream_llm ensure_model generate prompt out = (out ++ streamed prompt, Ok tt).
Proof.
  intros Hm. unfold stream_llm, streamed.
  erewrite io_bind_ok; [|unfold lift; by rewrite Hm].
  erewrite io_bind_ok; [|apply print_out].
  erewrite io_bind_ok;
    [|apply (for_each_writes _ _ (fun chunk => [chunk])); by intros].
  replace (flat_map (fun chunk => [chunk]) (generate prompt).1)
    with (generate prompt).1
    by (induction (generate prompt).1 as [|x l IH]; simpl; congruence).
  destruct (generate prompt).2 as [e|].
  - erewrite io_bind_ok; [|apply print_out]. unfold print_no_end, write.
    by rewrite <- !app_assoc.
  - unfold mret, io_ret. by rewrite app_nil_r, <- !app_assoc.
Qed.

Lemma turn_on_dict query entries names out :
  search query = PyDict entries → named entries names →
  ensure_model = Ok tt →
  let sources := zip names entries.*2 in
  let prompt := build_system_prompt system_prompt query sources in
  turn search ensure_model generate system_prompt query out
  = (out ++ flat_map shown sources
         ++ [("Prompt: " +:+ prompt) +:+ nl]
         ++ streamed prompt
         ++ reference_lines names,
     Ok tt).
Proof.
  intros Hs Hn Hm sources prompt. unfold turn. rewrite Hs.
  erewrite io_bind_ok; [|reflexivity].
  erewrite io_bind_ok; [|by apply show_entries].
  cbn [is_dict].
  erewrite io_bind_ok; [|unfold lift; by rewrite (sources_of _ _ Hn)].
  fold sources. fold prompt.
  erewrite io_bind_ok; [|apply print_out].
  erewrite io_bind_ok; [|by apply stream_llm_ok].
  erewrite io_bind_ok; [|apply print_out].
  erewrite io_bind_ok;
    [|unfold lift; by rewrite (reference_list_of _ _ Hn)].
  erewrite io_bind_ok;
    [|apply (for_each_writes _ _ (fun ref => [("- " +:+ ref) +:+ nl]));
      by intros].
  rewrite print_out. unfold reference_lines.
  replace (flat_map (fun ref => [("- " +:+ ref) +:+ nl]) (distinct names))
    with (map (fun ref => ("- " +:+ ref) +:+ nl) (distinct names))
    by (induction (distinct names) as [|x l IH]; simpl; congruence).
  by rewrite <- !app_assoc.
Qed.

(** C9.  The source name of a composite id that holds an underscore is
    what follows its first underscore, so [42_Diabetes Overview] is shown
    as [Diabetes Overview]; an id without underscore has none
    ([IndexError]).  In a turn on a dict all of whose ids hold an
    underscore, with the model available, each entry is shown under that
    name, in order, and after the stream the references printed are the
    names without repetition: a name is listed when some entry has it,
    and a name shared by several entries is listed exactly once. *)
Theorem C9_source_names_and_references :
  (∀ pre post, no_underscore pre = true →
               source_name (pre +:+ String "_" post) = Ok post)
  ∧ source_name "42_Diabetes Overview" = Ok "Diabetes Overview"
  ∧ (∀ title, no_underscore title = true →
              source_name title = Raise IndexError)
  ∧ (∀ query entries names out,
       search query = PyDict entries → named entries names →
       ensure_model = Ok tt →
       let sources := zip names entries.*2 in
       let prompt := build_system_prompt system_prompt query sources in
       turn search ensure_model generate system_prompt query out
       = (out ++ flat_map shown sources
              ++ [("Prompt: " +:+ prompt) +:+ nl]
              ++ streamed prompt
              ++ reference_lines names,
          Ok tt))
  ∧ (∀ names, NoDup (distinct names))
  ∧ (∀ names ref, ref ∈ distinct names ↔ ref ∈ names)
  ∧ (∀ names ref, ref ∈ names →
       List.length (List.filter (String.eqb ref) (distinct names)) = 1).
Proof.
  split; [|split; [|split; [|split; [|split; [|split]]]]].
  - apply source_name_after_underscore.
  - reflexivity.
  - apply source_name_no_underscore.
  - intros query entries names out Hs Hn Hm. by apply turn_on_dict.
  - apply distinct_nodup.
  - intros names ref. apply distinct_elem.
  - intros names ref Hin. apply nodup_count_once.
    + apply distinct_nodup.
    + by apply distinct_elem.
Qed.

End QueryLoop.

Section QueryLoopExamples.
Import Pipeline.

(** A vector database that answers every query with two snippets of the
    same document. *)
Definition same_document (query : string) : pyval :=
  PyDict [("42_Diabetes Overview", "Diabetes is common.");
          ("7_Diabetes Overview", "Insulin lowers glucose.")].

Definition two_chunks (prompt : string) : list string * option string :=
  (["Diabetes "; "is common."], None).

Definition plain_prompt (prompt formatted_sources : string) : string :=
  prompt +:+ nl +:+ formatted_sources.

Lemma C9_source_names_and_references_witness :
  "Diabetes Overview" ∈ ["Diabetes Overview"; "Diabetes Overview"]
  ∧ List.length
      (List.filter (String.eqb "Diabetes Overview")
         (distinct ["Diabetes Overview"; "Diabetes Overview"])) = 1.
Proof.
  split; [apply list_elem_of_here|].
  apply (C9_source_names_and_references same_document (Ok tt) two_chunks
           plain_prompt).
  apply list_elem_of_here.
Defined.

(** A vector database that answers with a list, one that answers with
    [None], and one that answers with a mapping that is not a dict. *)
Definition answers_list (query : string) : pyval := PyList [].
Definition answers_none (query : string) : pyval := PyNone.
Definition answers_mapping (query : string) : pyval :=
  PyMapping [("1_Asthma", "Asthma is common.")].

Definition question : string := "Enter your question (or type 'q' to quit): ".

(** C1, at a context result that is a list (or [None]).  The turn calls
    [items()] on the result before it tests the result's type, so the
    loop ends with [AttributeError] on the first query, prints no
    message and never reads the next line.  The test and its message are
    reached only by a result that offers [items()] without being a dict;
    then the turn is given up and the loop goes on. *)
Theorem C1_non_mapping_context_raises :
  ∀ ensure_model generate system_prompt,
    query_loop answers_list ensure_model generate system_prompt
      ["What is asthma?"; "q"] []
    = ([question], Raise AttributeError)
    ∧ query_loop answers_none ensure_model generate system_prompt
        ["What is asthma?"; "q"] []
      = ([question], Raise AttributeError)
    ∧ query_loop answers_mapping ensure_model generate system_prompt
        ["What is asthma?"; "q"] []
      = ([question;
          "Source Name: Asthma" +:+ nl;
          "Asthma is common." +:+ nl;
          nl +:+ nl;
          "Invalid context format from vector DB. Expected list of dicts."
            +:+ nl;
          question;
          "Exiting..." +:+ nl],
         Ok tt).
Proof. intros. repeat split. Qed.

End QueryLoopExamples.

(** * Further properties *)

(** ** Discovery: what is left on disk, and running it again *)

Section DiscoveryDisk.
Import DataHandler.
Context {vector : Type}.
Implicit Types (st : @state vector) (t : tree).

(** The tree without the files [load_data] deletes: same directories,
    same order. *)
Definition prune (t : tree) : tree :=
  map (fun dir => (dir.1, List.filter (fun f => negb (deletes f.1)) dir.2)) t.

Lemma remove_all_filter t ps :
  remove_all t ps
  = map (fun dir =>
           (dir.1,
            List.filter
              (fun f => negb (str_in (path_join dir.1 f.1) ps)) dir.2)) t.
Proof.
  revert t. induction ps as [|q ps IH]; intros t.
  - simpl. induction t as [|[root files] t IHt]; [done|].
    simpl. rewrite <- IHt. f_equal. f_equal.
    clear. induction files as [|f files IH]; [done|]. simpl. by rewrite <- IH.
  - simpl. rewrite IH. unfold os_remove. rewrite map_map.
    apply map_ext. intros [root files]. simpl. f_equal.
    induction files as [|f files IHf]; [done|]. simpl.
    destruct (String.eqb (path_join root f.1) q); simpl; [done|].
    destruct (str_in (path_join root f.1) ps); simpl; by rewrite IHf.
Qed.

Lemma remove_deleted_is_prune t :
  NoDup (paths t) → remove_all t (deleted_paths t) = prune t.
Proof.
  intros Hnd. rewrite remove_all_filter. unfold prune.
  apply map_ext_in. intros [root files] Hd. simpl. f_equal.
  apply filter_ext_in. intros [name c] Hf. simpl. f_equal.
  assert (Hdel : In (path_join root name) (deleted_paths t)
                 ↔ deletes name = true)
    by exact (selected_path_iff deletes _ _ _ _ _ Hnd Hd Hf).
  rewrite <- str_in_In in Hdel.
  destruct (deletes name), (str_in (path_join root name) (deleted_paths t));
    try done.
  - by apply proj2 in Hdel; specialize (Hdel eq_refl).
  - by apply proj1 in Hdel; specialize (Hdel eq_refl).
Qed.

Lemma filter_names (sel : string → bool) (files : list (string * content)) :
  (List.filter (fun f => sel f.1) files).*1 = List.filter sel files.*1.
Proof.
  induction files as [|[n c] files IH]; [done|].
  cbn [List.filter fst fmap list_fmap].
  destruct (sel n); cbn [fmap list_fmap fst]; by rewrite <- IH.
Qed.

Lemma filter_filter_names (p q : string → bool) (l : list string) :
  List.filter p (List.filter q l) = List.filter (fun n => q n && p n) l.
Proof.
  induction l as [|n l IH]; [done|]. simpl.
  destruct (q n); simpl; [|done]. destruct (p n); by rewrite IH.
Qed.

Lemma kept_paths_prune t : kept_paths (prune t) = kept_paths t.
Proof.
  unfold kept_paths, os_walk, prune.
  induction t as [|[root files] t IH]; [done|].
  cbn [map flat_map fst snd]. rewrite IH. f_equal.
  unfold kept_in. cbn [fst snd]. f_equal.
  rewrite (filter_names (fun n => negb (deletes n))), filter_filter_names.
  apply filter_ext. intros n. unfold deletes.
  by destruct (keeps n), (String.eqb n ".gitkeep").
Qed.

Lemma deleted_paths_prune t : deleted_paths (prune t) = [].
Proof.
  unfold deleted_paths, os_walk, prune.
  induction t as [|[root files] t IH]; [done|].
  cbn [map flat_map fst snd]. rewrite IH, app_nil_r.
  unfold deleted_in. cbn [fst snd].
  rewrite (filter_names (fun n => negb (deletes n))), filter_filter_names.
  induction files.*1 as [|n l IHl]; [done|]. simpl.
  destruct (deletes n); simpl; exact IHl.
Qed.

(** X1.  Discovery leaves the directories as they were, in their order, with
    exactly the files that are neither accepted nor [.gitkeep] taken out,
    and lists the accepted files in walk order after what was listed. *)
Theorem load_data_disk st :
  NoDup (paths (source st)) →
  source (load_data st) = prune (source st)
  ∧ data (load_data st) = data st ++ kept_paths (source st).
Proof.
  intros Hnd. destruct (load_data_effect st) as (Hd & Hs & _).
  rewrite Hd, Hs. by rewrite remove_deleted_is_prune.
Qed.

(** X2.  A second discovery finds nothing more to delete, but lists every
    accepted file a second time: [data] is never reset. *)
Theorem load_data_twice st :
  NoDup (paths (source st)) →
  source (load_data (load_data st)) = source (load_data st)
  ∧ data (load_data (load_data st))
    = data st ++ kept_paths (source st) ++ kept_paths (source st).
Proof.
  intros Hnd.
  destruct (load_data_effect (load_data st)) as (Hd2 & Hs2 & _).
  destruct (load_data_effect st) as (Hd & Hs & _).
  rewrite Hd2, Hs2, Hd, Hs, (remove_deleted_is_prune _ Hnd).
  rewrite deleted_paths_prune, kept_paths_prune. simpl.
  by rewrite <- app_assoc.
Qed.

Lemma kept_sublist t : kept_paths t `sublist_of` paths t.
Proof.
  unfold kept_paths, paths, all_files, os_walk.
  induction t as [|[root files] t IH]; [done|].
  cbn [map flat_map fst snd]. rewrite fmap_app.
  apply sublist_app; [|exact IH]. clear IH.
  unfold kept_in, dir_paths. cbn [fst snd].
  induction files as [|[n c] files IHf]; [done|].
  cbn [map fmap list_fmap List.filter fst snd].
  destruct (keeps n); cbn [map].
  - by apply sublist_skip.
  - by apply sublist_cons.
Qed.

(** X3.  After discovery on an empty list, [data] names each accepted file
    once, and every path it names is a file of the tree that is still on
    disk. *)
Theorem load_data_lists_existing_files st :
  NoDup (paths (source st)) → data st = [] →
  NoDup (data (load_data st))
  ∧ ∀ p, In p (data (load_data st)) →
         In p (paths (source st))
         ∧ is_Some (open (source (load_data st)) p).
Proof.
  intros Hnd Hdata.
  destruct (load_data_effect st) as (Hd & _). rewrite Hdata in Hd.
  simpl in Hd. split.
  - rewrite Hd. eapply sublist_NoDup; [exact Hnd|apply kept_sublist].
  - intros p Hp. split.
    + rewrite Hd in Hp. apply list_elem_of_In.
      eapply elem_of_sublist; [|apply kept_sublist]. by apply list_elem_of_In.
    + pose proof Hp as Hp'. rewrite Hd in Hp'.
      apply (in_walk_paths keeps) in Hp' as (name & Hin & Hk).
      apply in_flat_map in Hin as ([root files] & Hdir & Hf).
      apply in_map_iff in Hf as ([n c] & [= <- <-] & Hf).
      destruct (load_data_file st root files n c Hnd Hdata Hdir Hf)
        as [_ Hopen].
      simpl in Hopen. rewrite Hopen. unfold deletes. rewrite Hk. by eexists.
Qed.

End DiscoveryDisk.

Section DiscoveryDiskExamples.
Import DataHandler.

Lemma upper_tree_distinct : NoDup (paths (source upper_state)).
Proof. apply (bool_decide_unpack _). vm_compute. exact I. Defined.

Lemma load_data_disk_witness :
  source (load_data upper_state)
  = [("data", [("a.pdf", PdfFile ["A"]); (".gitkeep", TxtFile EmptyString)])].
Proof.
  rewrite (proj1 (load_data_disk upper_state upper_tree_distinct)).
  reflexivity.
Defined.

Lemma load_data_twice_witness :
  data (load_data (load_data upper_state)) = ["data/a.pdf"; "data/a.pdf"].
Proof.
  rewrite (proj2 (load_data_twice upper_state upper_tree_distinct)).
  reflexivity.
Defined.

Lemma load_data_lists_existing_files_witness :
  NoDup (data (load_data upper_state)).
Proof.
  exact (proj1 (load_data_lists_existing_files upper_state
                  upper_tree_distinct eq_refl)).
Defined.

End DiscoveryDiskExamples.

(** ** Cleaning: how it can fail, and what it leaves alone *)

Section CleaningOutcome.
Import DataHandler.
Context {vector : Type}.
Implicit Types (st : @state vector) (t : tree).

(** Reading or parsing the file failed. *)
Definition read_error (file : string) (e : exn) : Prop :=
  e = FileNotFoundError file ∨ e = ParseError file.

Lemma in_two (x a b : string) : str_in x [a; b] = true → x = a ∨ x = b.
Proof. intros [<-|[<-|[]]]%str_in_In; auto. Qed.

(** The extractor that [clean_data] picks passes its own extension test:
    it returns, or the file cannot be read or parsed. *)
Lemma dispatch_results t file log r :
  dispatch t file = Some (log, r) →
  (∃ x, r = Ok x) ∨ (∃ e, r = Raise e ∧ read_error file e).
Proof.
  unfold dispatch, read_error.
  destruct (str_in (extension file) ["pdf"; "PDF"]) eqn:Epdf.
  { assert (Hlow : lower (extension file) = "pdf")
      by (apply in_two in Epdf as [->| ->]; reflexivity).
    unfold __clean_pdf, read. rewrite Hlow. cbn [String.eqb negb].
    intros [= <- <-].
    destruct (open t file) as [[]|]; simpl; eauto. }
  destruct (str_in (extension file) ["txt"; "TXT"]) eqn:Etxt.
  { unfold __clean_txt, read. rewrite Etxt. cbn [negb].
    intros [= <- <-].
    destruct (open t file) as [[]|]; simpl; eauto. }
  destruct (str_in (extension file) ["docx"; "DOCX"]) eqn:Edocx.
  { unfold __clean_docx, read. rewrite Edocx. cbn [negb].
    intros [= <- <-].
    destruct (open t file) as [[]|]; simpl; eauto. }
  destruct (str_in (extension file) ["pptx"; "PPTX"]) eqn:Epptx.
  { unfold __clean_pptx, read. rewrite Epptx. cbn [negb].
    intros [= <- <-].
    destruct (open t file) as [[]|]; simpl; eauto. }
  destruct (String.eqb (extension file) "nxml") eqn:Enxml; [|done].
  unfold __clean_nxml, read. rewrite Enxml. cbn [negb].
  destruct (open t file) as [[]|]; try (intros [= <- <-]; eauto).
  unfold nxml_extract.
  destruct (Xml.find_desc_child _ _ _); [|intros [= <- <-]; eauto].
  destruct (String.eqb _ EmptyString); intros [= <- <-]; eauto.
Qed.

Lemma clean_file_outcome st file :
  (∃ st', clean_file st file = Ok st'
          ∧ source st' = source st ∧ data st' = data st
          ∧ vectorized_data st' = vectorized_data st)
  ∨ (∃ e, clean_file st file = Raise e ∧ read_error file e).
Proof.
  unfold clean_file.
  destruct (dispatch (source st) file) as [[log r]|] eqn:E.
  - destruct (prints_fields log st) as (Hd & _ & Hv & Hs & _).
    destruct (dispatch_results _ _ _ _ E) as [[[title text] ->]|(e & -> & He)].
    + left. simpl.
      destruct title as [title|], text as [text|]; eexists;
        (split; [done|]); simpl; by rewrite Hd, Hs, Hv.
    + right. by exists e.
  - left. by eexists.
Qed.



End CleaningOutcome.

(** ** Names, extensions and titles *)

Section Names.
Import DataHandler.

Definition no_slash (s : string) : bool :=
  all_chars (fun c => negb (Ascii.eqb c "/")) s.

(** A name with a dot splits at its last dot. *)
Lemma last_dot_split s :
  no_dot s = false → ∃ a b, s = a +:+ String "." b ∧ no_dot b = true.
Proof.
  induction s as [|c s IH]; [done|].
  unfold no_dot in *. cbn [all_chars].
  destruct (all_chars (fun c => negb (Ascii.eqb c ".")) s) eqn:Hs.
  - rewrite andb_true_r. intros Hc%negb_false_iff%Ascii.eqb_eq. subst c.
    by exists EmptyString, s.
  - intros _. destruct (IH eq_refl) as (a & b & -> & Hb).
    by exists (String c a), b.
Qed.

(** Text without a dot put after a string goes to its extension. *)
Lemma extension_app a b :
  no_dot b = true → extension (a +:+ b) = extension a +:+ b.
Proof.
  intros Hb. destruct (no_dot a) eqn:Ha.
  - rewrite (extension_no_dot a Ha). apply extension_no_dot.
    unfold no_dot in *. by rewrite all_chars_app, Ha, Hb.
  - destruct (last_dot_split a Ha) as (a1 & a2 & -> & Ha2).
    rewrite (extension_after_dot a1 a2 Ha2).
    rewrite append_assoc, append_cons.
    apply extension_after_dot. unfold no_dot in *.
    by rewrite all_chars_app, Ha2, Hb.
Qed.

(** A name with a dot keeps its extension under any prefix. *)
Lemma extension_prefix pre name :
  no_dot name = false → extension (pre +:+ name) = extension name.
Proof.
  intros H. destruct (last_dot_split name H) as (a & b & -> & Hb).
  rewrite <- append_assoc. by rewrite !extension_after_dot.
Qed.

Lemma ends_with_slash_split s :
  ends_with_slash s = true → ∃ pre, s = pre +:+ "/".
Proof.
  unfold ends_with_slash, index_last.
  induction s as [|c s IH]; [done|].
  destruct s as [|d s].
  - simpl. intros ->%Ascii.eqb_eq. by exists EmptyString.
  - intros H. destruct IH as (pre & ->); [exact H|].
    by exists (String c pre).
Qed.

(** A path built by [os.path.join] ends with the file name, after a
    slash unless the root is empty. *)
Lemma path_join_split root file :
  path_join root file = file ∧ root = EmptyString
  ∨ ∃ pre, path_join root file = pre +:+ String "/" file.
Proof.
  unfold path_join. destruct (String.eqb root EmptyString) eqn:E.
  - left. by apply String.eqb_eq in E.
  - right. destruct (ends_with_slash root) eqn:Es.
    + destruct (ends_with_slash_split root Es) as (pre & ->).
      exists pre. by rewrite append_assoc.
    + exists root. done.
Qed.

Lemma path_join_prefix root file : ∃ pre, path_join root file = pre +:+ file.
Proof.
  destruct (path_join_split root file) as [[-> _]|(pre & ->)].
  - by exists EmptyString.
  - exists (pre +:+ "/"). by rewrite append_assoc.
Qed.

Lemma accepted_no_slash (e : string) :
  str_in e ["pdf"; "PDF"] || str_in e ["txt"; "TXT"]
  || str_in e ["docx"; "DOCX"] || str_in e ["pptx"; "PPTX"]
  || String.eqb e "nxml" = true →
  no_slash e = true.
Proof.
  intros H.
  apply orb_prop in H as [H|H];
    [apply orb_prop in H as [H|H];
     [apply orb_prop in H as [H|H];
      [apply orb_prop in H as [H|H]|]|]|].
  - by apply in_two in H as [->| ->].
  - by apply in_two in H as [->| ->].
  - by apply in_two in H as [->| ->].
  - by apply in_two in H as [->| ->].
  - by apply String.eqb_eq in H as ->.
Qed.

Lemma dispatch_some_iff t file :
  is_Some (dispatch t file)
  ↔ str_in (extension file) ["pdf"; "PDF"]
    || str_in (extension file) ["txt"; "TXT"]
    || str_in (extension file) ["docx"; "DOCX"]
    || str_in (extension file) ["pptx"; "PPTX"]
    || String.eqb (extension file) "nxml" = true.
Proof.
  unfold dispatch.
  destruct (str_in (extension file) ["pdf"; "PDF"]); [by split; eauto|].
  destruct (str_in (extension file) ["txt"; "TXT"]); [by split; eauto|].
  destruct (str_in (extension file) ["docx"; "DOCX"]); [by split; eauto|].
  destruct (str_in (extension file) ["pptx"; "PPTX"]); [by split; eauto|].
  destruct (String.eqb (extension file) "nxml"); [by split; eauto|].
  simpl. split; [by intros [? ?]|done].
Qed.

(** X5.  Discovery looks at the file name, cleaning at the whole path.  They
    agree on a name that holds a dot: every such file that discovery
    lists is handed to an extractor.  They disagree on a name without a
    dot: a file named [pdf] (or [txt], ...) in a directory is listed by
    discovery and then passed over by cleaning, because the path, which
    holds no dot after the slash, is not an accepted extension. *)
Theorem discovery_and_cleaning_on_names t root name :
  keeps name = true →
  (no_dot name = false → is_Some (dispatch t (path_join root name)))
  ∧ (no_dot name = true → root ≠ EmptyString →
     dispatch t (path_join root name) = None).
Proof.
  intros Hk. split.
  - intros Hdot. apply dispatch_some_iff.
    destruct (path_join_prefix root name) as (pre & ->).
    rewrite (extension_prefix pre name Hdot).
    unfold keeps, file_types in Hk.
    apply str_in_In in Hk as [<-|[<-|[<-|[<-|[<-|[]]]]]]; reflexivity.
  - intros Hdot Hroot.
    destruct (path_join_split root name) as [[_ ?]|(pre & E)]; [done|].
    destruct (dispatch t (path_join root name)) eqn:Hd; [|done].
    exfalso.
    assert (Hsome : is_Some (dispatch t (path_join root name)))
      by (rewrite Hd; eauto).
    apply dispatch_some_iff, accepted_no_slash in Hsome.
    rewrite E in Hsome.
    rewrite (extension_app pre (String "/" name)) in Hsome.
    + unfold no_slash in Hsome. rewrite all_chars_app in Hsome.
      apply andb_prop in Hsome as [_ Hsome]. discriminate Hsome.
    + unfold no_dot in *. simpl. exact Hdot.
Qed.

Lemma discovery_and_cleaning_on_names_witness :
  dispatch [] (path_join "data" "pdf") = None
  ∧ is_Some (dispatch [] (path_join "data" "notes.v2.txt")).
Proof.
  split.
  - apply (discovery_and_cleaning_on_names [] "data" "pdf");
      [reflexivity|reflexivity|discriminate].
  - apply (discovery_and_cleaning_on_names [] "data" "notes.v2.txt");
      reflexivity.
Defined.

(** *** Titles taken from file names *)

Lemma head_split sep a rest :
  all_chars (fun c => negb (Ascii.eqb c sep)) a = true →
  head (split sep (a +:+ String sep rest)) = Some a.
Proof.
  induction a as [|c a IH]; intros H.
  - rewrite append_nil. simpl. by rewrite Ascii.eqb_refl.
  - simpl in H. apply andb_prop in H as [Hc%negb_true_iff H].
    rewrite append_cons. simpl. rewrite Hc. specialize (IH H).
    destruct (split sep (a +:+ String sep rest)) as [|h tl]; [done|].
    simpl in IH. by injection IH as ->.
Qed.

Lemma last_after_slash dir x :
  no_slash x = true → last (split "/" (dir +:+ String "/" x)) = Some x.
Proof.
  intros H. rewrite last_split_app.
  by rewrite (split_no_sep "/" x eq_refl H).
Qed.

Lemma path_name_after_slash dir x :
  no_slash x = true → path_name (dir +:+ String "/" x) = x.
Proof. intros H. unfold path_name. by rewrite last_after_slash. Qed.

Lemma path_name_plain x : no_slash x = true → path_name x = x.
Proof.
  intros H. unfold path_name. by rewrite (split_no_sep "/" x eq_refl H).
Qed.

Lemma rfind_dot_none s : no_dot s = true → rfind_dot s = None.
Proof.
  unfold no_dot. induction s as [|c s IH]; [done|]. simpl.
  intros [Hc%negb_true_iff Hs]%andb_prop. by rewrite (IH Hs), Hc.
Qed.

Lemma rfind_dot_last x e :
  no_dot e = true → rfind_dot (x +:+ String "." e) = Some (String.length x).
Proof.
  intros He. induction x as [|c x IH].
  - rewrite append_nil. simpl. by rewrite (rfind_dot_none e He).
  - rewrite append_cons. simpl. by rewrite IH.
Qed.

Lemma substring_prefix x rest :
  String.substring 0 (String.length x) (x +:+ rest) = x.
Proof.
  induction x as [|c x IH].
  - simpl. by destruct (EmptyString +:+ rest).
  - rewrite append_cons. simpl. by rewrite IH.
Qed.

(** The stem of a name [x.e] whose two parts are not empty. *)
Lemma stem_of_name x e :
  x ≠ EmptyString → e ≠ EmptyString → no_dot e = true →
  (let name := x +:+ String "." e in
   match rfind_dot name with
   | Some i =>
       if (0 <? i) && (i <? String.length name - 1)
       then String.substring 0 i name
       else name
   | None => name
   end) = x.
Proof.
  intros Hx He Hdot. cbv zeta. rewrite (rfind_dot_last x e Hdot).
  rewrite length_append. cbn [String.length].
  assert (H1 : (0 <? String.length x) = true).
  { apply Nat.ltb_lt. destruct x; [done|simpl; lia]. }
  assert (H2 : (String.length x
                <? String.length x + S (String.length e) - 1) = true).
  { apply Nat.ltb_lt. destruct e; [done|simpl; lia]. }
  rewrite H1, H2. apply substring_prefix.
Qed.

Lemma path_stem_in_dir dir x e :
  x ≠ EmptyString → e ≠ EmptyString →
  no_slash x = true → no_slash e = true → no_dot e = true →
  path_stem (dir +:+ String "/" (x +:+ String "." e)) = x.
Proof.
  intros Hx He Hsx Hse Hdot. unfold path_stem.
  rewrite path_name_after_slash.
  - by apply stem_of_name.
  - unfold no_slash in *. rewrite all_chars_app, Hsx. simpl. exact Hse.
Qed.

(** X6.  [__clean_docx] cuts the file name at its first dot, the other
    extractors at its last: for a name with a single dot the titles agree,
    for [report.v2.docx] the DOCX title is [report] where the stem is
    [report.v2], so two such versions of a document share one title. *)
Theorem docx_title_cuts_at_first_dot dir a rest :
  no_dot a = true → no_slash a = true → no_slash rest = true →
  docx_title (dir +:+ String "/" (a +:+ String "." rest)) = a
  ∧ (∀ b e, rest = b +:+ String "." e → a ≠ EmptyString →
            e ≠ EmptyString → no_dot e = true →
            path_stem (dir +:+ String "/" (a +:+ String "." rest))
            = a +:+ String "." b).
Proof.
  intros Hda Hsa Hsr. split.
  - unfold docx_title. rewrite last_after_slash.
    + simpl. by rewrite (head_split "." a rest Hda).
    + unfold no_slash in *. rewrite all_chars_app, Hsa. simpl. exact Hsr.
  - intros b e -> Ha He Hde.
    unfold no_slash in Hsr. rewrite all_chars_app in Hsr.
    apply andb_prop in Hsr as [Hsb Hse]. simpl in Hse.
    replace (a +:+ String "." (b +:+ String "." e))
      with ((a +:+ String "." b) +:+ String "." e)
      by (by rewrite append_assoc, append_cons).
    apply path_stem_in_dir; try done.
    + destruct a; [done|]. by rewrite append_cons.
    + unfold no_slash in *. rewrite all_chars_app, Hsa. simpl. exact Hsb.
Qed.

Lemma docx_title_cuts_at_first_dot_witness :
  docx_title "data/report.v2.docx" = "report"
  ∧ path_stem "data/report.v2.docx" = "report.v2".
Proof.
  destruct (docx_title_cuts_at_first_dot "data" "report" "v2.docx"
              eq_refl eq_refl eq_refl) as [H1 H2].
  split; [exact H1|].
  apply (H2 "v2" "docx" eq_refl); [discriminate|discriminate|reflexivity].
Defined.

(** *** Slides *)

(** The texts of the shapes that have one, slide by slide. *)
Definition shape_texts (slides : list (list (option string))) : list string :=
  flat_map (fun slide =>
              flat_map (fun shape => match shape with
                                     | Some shape_text => [shape_text]
                                     | None => []
                                     end) slide) slides.

Lemma concat_all_app l1 l2 :
  concat_all (l1 ++ l2) = concat_all l1 +:+ concat_all l2.
Proof.
  induction l1 as [|x l1 IH]; [done|]. simpl. by rewrite IH, append_assoc.
Qed.

Lemma pptx_slide_from acc (slide : list (option string)) :
  foldl (fun text shape =>
           match shape with
           | Some shape_text => text +:+ shape_text
           | None => text
           end) acc slide
  = acc +:+ concat_all (flat_map (fun shape => match shape with
                                               | Some shape_text => [shape_text]
                                               | None => []
                                               end) slide).
Proof.
  revert acc. induction slide as [|[x|] slide IH]; intros acc; simpl.
  - by rewrite append_nil_r.
  - by rewrite IH, append_assoc.
  - apply IH.
Qed.

(** X7.  [__clean_pptx] returns the texts of all shapes that have one, in
    slide order and shape order, with nothing put between them; a shape
    without text and an empty slide add nothing. *)
Theorem pptx_text_is_concatenation slides :
  pptx_text slides = concat_all (shape_texts slides)
  ∧ ∀ t file, str_in (extension file) ["pptx"; "PPTX"] = true →
              open t file = Some (PptxFile slides) →
              __clean_pptx t file
              = ([], Ok (Some (path_stem file),
                         Some (concat_all (shape_texts slides)))).
Proof.
  assert (H : ∀ acc, foldl (fun text slide =>
                              foldl (fun text shape =>
                                       match shape with
                                       | Some shape_text => text +:+ shape_text
                                       | None => text
                                       end) text slide) acc slides
                     = acc +:+ concat_all (shape_texts slides)).
  { induction slides as [|slide slides IH]; intros acc; simpl.
    - by rewrite append_nil_r.
    - rewrite IH, pptx_slide_from. unfold shape_texts. simpl.
      by rewrite concat_all_app, append_assoc. }
  assert (E : pptx_text slides = concat_all (shape_texts slides)).
  { unfold pptx_text. by rewrite H, append_nil. }
  split; [exact E|].
  intros t file Hext Hopen. unfold __clean_pptx, read.
  rewrite Hext, Hopen. simpl. by rewrite E.
Qed.

Lemma pptx_text_is_concatenation_witness :
  __clean_pptx [("data", [("talk.pptx", PptxFile [[Some "Title"; None];
                                                  []; [Some "End"]])])]
    "data/talk.pptx"
  = ([], Ok (Some "talk", Some "TitleEnd")).
Proof.
  rewrite (proj2 (pptx_text_is_concatenation [[Some "Title"; None];
                                              []; [Some "End"]])
             [("data", [("talk.pptx", PptxFile [[Some "Title"; None];
                                                []; [Some "End"]])])]
             "data/talk.pptx" eq_refl eq_refl).
  reflexivity.
Defined.

End Names.

(** ** Cleaned files and the fallback of [vectorize_data] *)

Section CleanedFiles.
Import DataHandler.
Context {vector : Type}.
Variable clean_data_path : string.
Implicit Types (st : @state vector).

Lemma rstrip_last s : is_space_opt (last_char (rstrip s)) = false.
Proof.
  induction s as [|c s IH]; [done|]. simpl.
  destruct (rstrip s) as [|d r] eqn:E.
  - destruct (isspace c) eqn:Hc; [done|]. simpl. exact Hc.
  - exact IH.
Qed.

(** X8.  Whatever the title, its sanitised form is safe: none of the invalid
    characters, no white space at either end. *)
Theorem sanitize_is_safe s : is_safe_title (sanitize s) = true.
Proof.
  unfold is_safe_title. rewrite sanitize_all_valid. simpl.
  unfold sanitize, strip.
  rewrite rstrip_first by apply lstrip_first.
  by rewrite rstrip_last.
Qed.

Lemma all_chars_impl (p q : ascii → bool) s :
  (∀ c, p c = true → q c = true) →
  all_chars p s = true → all_chars q s = true.
Proof.
  intros Hpq. induction s as [|c s IH]; [done|]. simpl.
  intros [Hc Hs]%andb_prop. by rewrite (Hpq c Hc), (IH Hs).
Qed.

Lemma sanitize_no_slash s : no_slash (sanitize s) = true.
Proof.
  apply (all_chars_impl valid_char); [|apply sanitize_all_valid].
  intros c Hc. destruct (Ascii.eqb c "/") eqn:E; [|done].
  apply Ascii.eqb_eq in E. by subst.
Qed.

(** X9.  The file written for a title is read back by the fallback under the
    sanitised title, except that an empty sanitised title, written as
    [.txt], comes back as [.txt]. *)
Theorem stem_of_cleaned_file title :
  path_stem (sanitize title +:+ ".txt")
  = if String.eqb (sanitize title) EmptyString then ".txt"
    else sanitize title.
Proof.
  destruct (String.eqb (sanitize title) EmptyString) eqn:E.
  - apply String.eqb_eq in E. by rewrite E.
  - apply String.eqb_neq in E. unfold path_stem.
    rewrite path_name_plain.
    + by apply (stem_of_name (sanitize title) "txt").
    + pose proof (sanitize_no_slash title) as Hs.
      unfold no_slash in *. rewrite all_chars_app. by rewrite Hs.
Qed.

(** *** The fallback *)

Lemma reload_dict st :
  data_dict (reload_cleaned clean_data_path st)
  = foldl (fun m f => <[path_stem f.1 := f.2]> m) (data_dict st) (cleaned st).
Proof.
  unfold reload_cleaned.
  set (st0 := print _ st). change (data_dict st) with (data_dict st0).
  clearbody st0. revert st0.
  induction (cleaned st) as [|f files IH]; intros st0; [done|].
  simpl. by rewrite IH.
Qed.

Lemma reload_fold_frame (files : list (string * string)) st :
  let st' :=
    foldl (fun st f =>
             set_data_dict (<[path_stem f.1 := f.2]> (data_dict st)) st)
      st files in
  source st' = source st ∧ cleaned st' = cleaned st
  ∧ vectorized_data st' = vectorized_data st
  ∧ vector_file st' = vector_file st.
Proof.
  revert st. induction files as [|f files IH]; intros st; [done|].
  cbn zeta in *. cbn [foldl].
  by destruct (IH (set_data_dict (<[path_stem f.1:=f.2]> (data_dict st)) st))
    as (-> & -> & -> & ->).
Qed.

Lemma reload_frame st :
  source (reload_cleaned clean_data_path st) = source st
  ∧ cleaned (reload_cleaned clean_data_path st) = cleaned st
  ∧ vectorized_data (reload_cleaned clean_data_path st) = vectorized_data st
  ∧ vector_file (reload_cleaned clean_data_path st) = vector_file st.
Proof.
  unfold reload_cleaned.
  exact (reload_fold_frame (cleaned st)
           (print ("Reading " +:+ clean_data_path +:+ "...") st)).
Qed.


Lemma stems_keys (files : list (string * string))
  (m : gmap string string) k :
  is_Some (foldl (fun m f => <[path_stem f.1 := f.2]> m) m files !! k)
  ↔ is_Some (m !! k) ∨ ∃ f, In f files ∧ path_stem f.1 = k.
Proof.
  revert m. induction files as [|f files IH]; intros m; simpl.
  { split; [by left|]. by intros [?|(? & [] & _)]. }
  rewrite IH, lookup_insert_is_Some. split.
  - intros [[<-|[_ H]]|(f' & Hf' & E)].
    + right. exists f. split; [by left|done].
    + by left.
    + right. exists f'. split; [by right|done].
  - intros [H|(f' & [->|Hf'] & E)].
    + left. destruct (decide (path_stem f.1 = k)); [by left|by right].
    + left. by left.
    + right. by exists f'.
Qed.


End CleanedFiles.

Section CleanedFilesExamples.
Import DataHandler.


End CleanedFilesExamples.

(** ** Vectorising: failure, stale keys, repetition *)

Section VectorizeMore.
Import DataHandler.
Context {vector : Type}.
Variable embed_text : string → vector.
Variable clean_data_path : string.
Implicit Types (st : @state vector).

(** The mapping [vectorize_data] works on: the handler's, or the one
    rebuilt from the cleaned-data directory when the handler's is empty. *)
Definition working_dict st : gmap string string :=
  if decide (data_dict st = ∅)
  then foldl (fun m f => <[path_stem f.1 := f.2]> m) ∅ (cleaned st)
  else data_dict st.

(** The handler when the loop over the items starts. *)
Definition before_items st : state :=
  print "Vectorizing data..."
    (if decide (data_dict st = ∅) then
       reload_cleaned clean_data_path
         (print ("Didn't clean data, assuming it's done already " +:+
                 "and saved. Loading data...") st)
     else st).

Lemma before_items_fields st :
  data_dict (before_items st) = working_dict st
  ∧ vectorized_data (before_items st) = vectorized_data st
  ∧ source (before_items st) = source st
  ∧ cleaned (before_items st) = cleaned st.
Proof.
  unfold before_items, working_dict.
  destruct (decide (data_dict st = ∅)) as [E|E]; [|done].
  cbn [data_dict vectorized_data source cleaned print].
  rewrite reload_dict. cbn [data_dict cleaned print]. rewrite E.
  split; [done|].
  destruct (reload_frame clean_data_path
              (print ("Didn't clean data, assuming it's done already " +:+
                      "and saved. Loading data...") st))
    as (Hs & Hc & Hv & _).
  change (reload_cleaned clean_data_path
            (print ("Didn't clean data, assuming it's done already " +:+
                    "and saved. Loading data...") st))
    with (reload_cleaned clean_data_path
            (print ("Didn't clean data, assuming it's done already " +:+
                    "and saved. Loading data...") st)) in *.
  by rewrite Hs, Hc, Hv.
Qed.

Lemma vectorize_items_frame st :
  data_dict (vectorize_items embed_text st) = data_dict st
  ∧ source (vectorize_items embed_text st) = source st
  ∧ cleaned (vectorize_items embed_text st) = cleaned st.
Proof.
  unfold vectorize_items.
  generalize (map_to_list (data_dict st)). intros items.
  revert st. induction items as [|item items IH]; intros st; [done|].
  cbn [foldl]. destruct (String.eqb item.1 ".gitkeep"); [apply IH|].
  by destruct (IH (set_vectorized_data
                     (<[item.1:=embed_text item.2]> (vectorized_data st)) st))
    as (-> & -> & ->).
Qed.

(** The handler [vectorize_data] returns when it has data. *)
Definition after_vectorize st : state :=
  let st1 := vectorize_items embed_text (before_items st) in
  set_vector_file (Some (json_dump (vectorized_data st1))) st1.

Lemma vectorize_data_cases st :
  vectorize_data embed_text clean_data_path st
  = if decide (working_dict st = ∅)
    then Raise (ValueError "No data to vectorize.")
    else Ok (after_vectorize st, vectorized_data (after_vectorize st)).
Proof.
  unfold vectorize_data, after_vectorize, before_items, working_dict.
  destruct (decide (data_dict st = ∅)) as [E|E].
  - rewrite reload_dict. cbn [data_dict cleaned print]. rewrite E.
    by destruct (decide (foldl _ ∅ (cleaned st) = ∅)).
  - by destruct (decide (data_dict st = ∅)).
Qed.

Lemma after_vectorize_lookup st k :
  vectorized_data (after_vectorize st) !! k
  = match working_dict st !! k with
    | Some text =>
        if String.eqb k ".gitkeep" then vectorized_data st !! k
        else Some (embed_text text)
    | None => vectorized_data st !! k
    end.
Proof.
  unfold after_vectorize. cbn [vectorized_data set_vector_file].
  rewrite vectorize_items_lookup.
  by destruct (before_items_fields st) as (-> & -> & _).
Qed.

Lemma stems_nonempty (files : list (string * string)) :
  files ≠ [] →
  foldl (fun m f => <[path_stem f.1 := f.2]> m) (∅ : gmap string string) files
  ≠ ∅.
Proof.
  destruct files as [|f files]; [done|]. intros _ E.
  assert (H : is_Some (foldl (fun m f => <[path_stem f.1 := f.2]> m)
                         (∅ : gmap string string) (f :: files)
                       !! path_stem f.1)).
  { apply stems_keys. right. exists f. split; [by left|done]. }
  rewrite E, lookup_empty in H. by destruct H.
Qed.

Lemma working_dict_empty st :
  working_dict st = ∅ ↔ data_dict st = ∅ ∧ cleaned st = [].
Proof.
  unfold working_dict.
  destruct (decide (data_dict st = ∅)) as [E|E].
  - split.
    + intros H. split; [done|].
      destruct (cleaned st) as [|f files] eqn:Ec; [done|].
      by apply stems_nonempty in H.
    + intros [_ ->]. done.
  - split; [done|]. by intros [? _].
Qed.


Lemma after_vectorize_fields st :
  data_dict (after_vectorize st) = working_dict st
  ∧ source (after_vectorize st) = source st
  ∧ cleaned (after_vectorize st) = cleaned st
  ∧ vector_file (after_vectorize st)
    = Some (json_dump (vectorized_data (after_vectorize st))).
Proof.
  unfold after_vectorize.
  cbn [data_dict source cleaned vector_file vectorized_data set_vector_file].
  destruct (vectorize_items_frame (before_items st)) as (-> & -> & ->).
  by destruct (before_items_fields st) as (-> & _ & -> & ->).
Qed.

Lemma vectorize_data_ok st st1 m :
  vectorize_data embed_text clean_data_path st = Ok (st1, m) →
  working_dict st ≠ ∅ ∧ st1 = after_vectorize st
  ∧ m = vectorized_data (after_vectorize st).
Proof.
  rewrite vectorize_data_cases.
  destruct (decide (working_dict st = ∅)); [done|]. by intros [= <- <-].
Qed.


(** X14.  Running [vectorize_data] again on the handler it returned gives the
    same mapping and writes the same artifact. *)
Theorem vectorize_data_again st st1 m :
  vectorize_data embed_text clean_data_path st = Ok (st1, m) →
  ∃ st2, vectorize_data embed_text clean_data_path st1 = Ok (st2, m)
         ∧ vector_file st2 = vector_file st1.
Proof.
  intros (Hne & -> & ->)%vectorize_data_ok.
  destruct (after_vectorize_fields st) as (Hd & _ & _ & Hf).
  assert (Hw : working_dict (after_vectorize st) = working_dict st).
  { unfold working_dict at 1. rewrite Hd.
    by destruct (decide (working_dict st = ∅)). }
  assert (Hm : vectorized_data (after_vectorize (after_vectorize st))
               = vectorized_data (after_vectorize st)).
  { apply map_eq. intros k.
    rewrite (after_vectorize_lookup (after_vectorize st)), Hw.
    rewrite (after_vectorize_lookup st).
    destruct (working_dict st !! k) as [text|]; [|done].
    by destruct (String.eqb k ".gitkeep"). }
  rewrite vectorize_data_cases, Hw.
  destruct (decide (working_dict st = ∅)); [done|].
  exists (after_vectorize (after_vectorize st)). rewrite Hm. split; [done|].
  destruct (after_vectorize_fields (after_vectorize st)) as (_ & _ & _ & ->).
  by rewrite Hf, Hm.
Qed.

End VectorizeMore.

Section VectorizeMoreExamples.
Import DataHandler.

(** A handler that was loaded with an old artifact and then cleaned a new
    document. *)
Definition stale_handler : @state nat :=
  State [] (<["Asthma" := "Asthma is common."]> ∅)
    (<["Old title" := 3]> ∅) [] [] None [].



Lemma stale_handler_vectorized :
  vectorize_data String.length "cleaned" stale_handler
  = Ok (after_vectorize String.length "cleaned" stale_handler,
        vectorized_data (after_vectorize String.length "cleaned"
                           stale_handler)).
Proof.
  rewrite vectorize_data_cases.
  destruct (decide (working_dict stale_handler = ∅)) as [E|E]; [|done].
  exfalso. apply working_dict_empty in E as [E _].
  exact (insert_non_empty _ _ _ E).
Defined.


Lemma vectorize_data_again_witness :
  ∃ st2, vectorize_data String.length "cleaned"
           (after_vectorize String.length "cleaned" stale_handler)
         = Ok (st2, vectorized_data (after_vectorize String.length "cleaned"
                                       stale_handler))
         ∧ vector_file st2
           = vector_file (after_vectorize String.length "cleaned"
                            stale_handler).
Proof.
  exact (vectorize_data_again String.length "cleaned" stale_handler _ _
           stale_handler_vectorized).
Defined.

End VectorizeMoreExamples.

(** ** The query loop: leaving it, and how a turn can end *)

Section QueryLoopMore.
Import Pipeline.
Variable search : string → pyval.
Variable ensure_model : result unit.
Variable generate : string → list string * option string.
Variable system_prompt : string → string → string.

Abbreviation loop :=
  (query_loop search ensure_model generate system_prompt).
Abbreviation one_turn := (turn search ensure_model generate system_prompt).

Lemma lower_char_q c : lower_char c = "q"%char → c = "q"%char ∨ c = "Q"%char.
Proof.
  destruct c as [[] [] [] [] [] [] [] []]; vm_compute; intros H;
    try discriminate H; auto.
Qed.

Lemma lower_is_q s : lower s = "q" ↔ s = "q" ∨ s = "Q".
Proof.
  split; [|by intros [->| ->]].
  destruct s as [|c [|d s]]; [done| |done].
  simpl. intros [= H]. by apply lower_char_q in H as [->| ->]; [left|right].
Qed.

(** The line that ends the session. *)
Definition quits (line : string) : Prop :=
  strip line = "q" ∨ strip line = "Q".

Lemma quits_test line :
  String.eqb (lower (strip line)) "q" = true ↔ quits line.
Proof. rewrite String.eqb_eq. apply lower_is_q. Qed.

Lemma loop_quit line stdin out :
  quits line →
  loop (line :: stdin) out = (out ++ [question; "Exiting..." +:+ nl], Ok tt).
Proof.
  intros H. apply quits_test in H. cbn [query_loop].
  erewrite io_bind_ok; [|reflexivity]. rewrite H.
  rewrite print_out. by rewrite <- app_assoc.
Qed.

Lemma loop_step line stdin out :
  ¬ quits line →
  loop (line :: stdin) out
  = match one_turn (strip line) (out ++ [question]) with
    | (out', Ok _) => loop stdin out'
    | (out', Raise e) => (out', Raise e)
    end.
Proof.
  intros H.
  assert (E : String.eqb (lower (strip line)) "q" = false).
  { destruct (String.eqb (lower (strip line)) "q") eqn:E; [|done].
    by apply quits_test in E. }
  cbn [query_loop]. erewrite io_bind_ok; [|reflexivity]. rewrite E.
  unfold mbind, io_bind, question.
  by destruct (one_turn (strip line) _) as [out' [[]|e]].
Qed.

(** X17.  The loop is left by a line that is [q] or [Q] once stripped, and by
    no other line; it is left at once, before any search, whatever the
    collaborators are and whatever follows on the console. *)
Theorem quit_line_ends_loop line stdin out :
  (quits line →
   loop (line :: stdin) out
   = (out ++ [question; "Exiting..." +:+ nl], Ok tt))
  ∧ (¬ quits line →
     loop (line :: stdin) out
     = match one_turn (strip line) (out ++ [question]) with
       | (out', Ok _) => loop stdin out'
       | (out', Raise e) => (out', Raise e)
       end).
Proof. split; [apply loop_quit | apply loop_step]. Qed.

(** X18.  With a vector database that always answers with a dict whose ids
    hold an underscore, and the model available, the loop goes through any
    number of queries: it ends normally at the first quitting line,
    without reading further, and with [EOFError] if the console ends
    before one. *)
Theorem loop_runs_until_quit lines out :
  (∀ q, ∃ entries names, search q = PyDict entries ∧ named entries names) →
  ensure_model = Ok tt →
  Forall (fun line => ¬ quits line) lines →
  ∃ out',
    loop lines out = (out' ++ [question], Raise EOFError)
    ∧ ∀ line rest, quits line →
        loop (lines ++ line :: rest) out
        = (out' ++ [question; "Exiting..." +:+ nl], Ok tt).
Proof.
  intros Hsearch Hmodel Hlines. revert out.
  induction Hlines as [|l ls Hl Hls IH]; intros out.
  - exists out. split; [reflexivity|].
    intros line rest Hq. by apply loop_quit.
  - destruct (Hsearch (strip l)) as (entries & names & Hs & Hn).
    pose proof (turn_on_dict search ensure_model generate system_prompt
                  (strip l) entries names (out ++ [question]) Hs Hn Hmodel)
      as Hturn.
    cbv zeta in Hturn.
    destruct (IH (out ++ [question]
                  ++ flat_map shown (zip names entries.*2)
                  ++ [("Prompt: " +:+
                       build_system_prompt system_prompt (strip l)
                         (zip names entries.*2)) +:+ nl]
                  ++ streamed generate
                       (build_system_prompt system_prompt (strip l)
                          (zip names entries.*2))
                  ++ reference_lines names))
      as (out' & Heof & Hquit).
    exists out'. split.
    + rewrite (loop_step l ls out Hl), Hturn, <- Heof.
      by rewrite <- !app_assoc.
    + intros line rest Hq. cbn [app].
      rewrite (loop_step l _ out Hl), Hturn, <- (Hquit line rest Hq).
      by rewrite <- !app_assoc.
Qed.

(** *** Turns that stop early *)

Lemma show_entries_then_bad good names (bad : string * string) rest out :
  named good names → no_underscore bad.1 = true →
  for_each (good ++ bad :: rest)
    (fun entry =>
       name ← lift (source_name entry.1);
       print ("Source Name: " +:+ name) ;;
       print entry.2 ;;
       print nl) out
  = (out ++ flat_map shown (zip names good.*2), Raise IndexError).
Proof.
  intros H Hbad. revert out.
  induction H as [|[title text] name good names Hn H IH]; intros out.
  - simpl. erewrite io_bind_raise.
    + by rewrite app_nil_r.
    + erewrite io_bind_raise; [done|].
      unfold lift. by rewrite (source_name_no_underscore _ Hbad).
  - cbn [app for_each]. simpl in Hn.
    erewrite io_bind_ok; cycle 1.
    { erewrite io_bind_ok; [|unfold lift; cbn [fst]; by rewrite Hn].
      erewrite io_bind_ok; [|apply print_out].
      erewrite io_bind_ok; [|apply print_out].
      apply print_out. }
    rewrite IH. simpl. by rewrite <- !app_assoc.
Qed.

(** X19.  A composite id without underscore ends the turn, and with it the
    program, with [IndexError]: the entries before it have been shown,
    nothing else is printed, and neither the prompt is built nor the model
    called. *)
Theorem id_without_underscore_raises query good names bad rest out :
  items (search query) = Ok (good ++ bad :: rest) →
  named good names → no_underscore bad.1 = true →
  one_turn query out
  = (out ++ flat_map shown (zip names good.*2), Raise IndexError).
Proof.
  intros Hi Hn Hbad. unfold turn.
  erewrite io_bind_ok; [|unfold lift; by rewrite Hi].
  erewrite io_bind_raise; [done|].
  by apply show_entries_then_bad.
Qed.

(** X20.  A result that offers [items()] without being a dict is shown like a
    dict, then refused with the message, and the turn ends normally. *)
Theorem mapping_that_is_no_dict_is_refused query entries names out :
  search query = PyMapping entries → named entries names →
  one_turn query out
  = (out ++ flat_map shown (zip names entries.*2)
         ++ ["Invalid context format from vector DB. Expected list of dicts."
             +:+ nl],
     Ok tt).
Proof.
  intros Hs Hn. unfold turn. rewrite Hs.
  erewrite io_bind_ok; [|reflexivity].
  erewrite io_bind_ok; [|by apply show_entries].
  cbn [is_dict]. rewrite print_out. by rewrite <- app_assoc.
Qed.

(** X21.  When the model cannot be made available, the error of [ensure_model]
    leaves the turn after the prompt has been printed: it is not turned
    into the sentinel chunk, and no reference is printed. *)
Theorem unavailable_model_ends_turn query entries names e out :
  search query = PyDict entries → named entries names →
  ensure_model = Raise e →
  let sources := zip names entries.*2 in
  let prompt := build_system_prompt system_prompt query sources in
  one_turn query out
  = (out ++ flat_map shown sources ++ [("Prompt: " +:+ prompt) +:+ nl],
     Raise e).
Proof.
  intros Hs Hn Hm sources prompt. unfold turn. rewrite Hs.
  erewrite io_bind_ok; [|reflexivity].
  erewrite io_bind_ok; [|by apply show_entries].
  cbn [is_dict].
  erewrite io_bind_ok; [|unfold lift; by rewrite (sources_of _ _ Hn)].
  fold sources. fold prompt.
  erewrite io_bind_ok; [|apply print_out].
  erewrite io_bind_raise; cycle 1.
  { unfold stream_llm. erewrite io_bind_raise; [done|].
    unfold lift. by rewrite Hm. }
  by rewrite <- ?app_assoc.
Qed.

End QueryLoopMore.

Section QueryLoopMoreExamples.
Import Pipeline.

Lemma same_document_named :
  ∀ q, ∃ entries names,
    same_document q = PyDict entries ∧ named entries names.
Proof.
  intros q. eexists _, ["Diabetes Overview"; "Diabetes Overview"].
  split; [reflexivity|]. repeat constructor.
Defined.

Lemma not_a_quit : ¬ quits "  What is diabetes? ".
Proof. intros [H|H]; vm_compute in H; discriminate H. Defined.

Lemma quit_line_ends_loop_witness :
  quits " Q  "
  ∧ query_loop answers_list (Ok tt) two_chunks plain_prompt
      [" Q  "; "never read"] []
    = ([question; "Exiting..." +:+ nl], Ok tt).
Proof.
  assert (H : quits " Q  ") by (right; reflexivity).
  split; [exact H|].
  exact (proj1 (quit_line_ends_loop answers_list (Ok tt) two_chunks
                  plain_prompt " Q  " ["never read"] []) H).
Defined.

Lemma loop_runs_until_quit_witness :
  ∃ out', query_loop same_document (Ok tt) two_chunks plain_prompt
            ["  What is diabetes? "; "q"; "never read"] []
          = (out' ++ [question; "Exiting..." +:+ nl], Ok tt).
Proof.
  destruct (loop_runs_until_quit same_document (Ok tt) two_chunks
              plain_prompt ["  What is diabetes? "] []
              same_document_named eq_refl
              (Forall_cons_2 (fun line => ¬ quits line) _ _ not_a_quit
                 (Forall_nil_2 _)))
    as (out' & _ & Hquit).
  exists out'. apply (Hquit "q" ["never read"]). by left.
Defined.

(** A vector database whose second id has no underscore. *)
Definition bad_second_id (query : string) : pyval :=
  PyDict [("1_Asthma", "Asthma is common."); ("Asthma", "No separator.")].

Lemma id_without_underscore_raises_witness :
  turn bad_second_id (Ok tt) two_chunks plain_prompt "asthma" []
  = (shown ("Asthma", "Asthma is common."), Raise IndexError).
Proof.
  rewrite (id_without_underscore_raises bad_second_id (Ok tt) two_chunks
             plain_prompt "asthma" [("1_Asthma", "Asthma is common.")]
             ["Asthma"] ("Asthma", "No separator.") [] []);
    [reflexivity|reflexivity|by repeat constructor|reflexivity].
Defined.

Lemma mapping_that_is_no_dict_is_refused_witness :
  turn answers_mapping (Ok tt) two_chunks plain_prompt "asthma" []
  = (shown ("Asthma", "Asthma is common.")
     ++ ["Invalid context format from vector DB. Expected list of dicts."
         +:+ nl],
     Ok tt).
Proof.
  rewrite (mapping_that_is_no_dict_is_refused answers_mapping (Ok tt)
             two_chunks plain_prompt "asthma"
             [("1_Asthma", "Asthma is common.")] ["Asthma"] []);
    [reflexivity|reflexivity|by repeat constructor].
Defined.

Lemma unavailable_model_ends_turn_witness :
  (query_loop same_document (Raise RuntimeError) two_chunks plain_prompt
     ["diabetes"; "q"] []).2
  = Raise RuntimeError.
Proof.
  assert (Hq : ¬ quits "diabetes")
    by (intros [H|H]; vm_compute in H; discriminate H).
  rewrite (loop_step same_document (Raise RuntimeError) two_chunks
             plain_prompt "diabetes" ["q"] [] Hq).
  rewrite (unavailable_model_ends_turn same_document (Raise RuntimeError)
             two_chunks plain_prompt (strip "diabetes")
             [("42_Diabetes Overview", "Diabetes is common.");
              ("7_Diabetes Overview", "Insulin lowers glucose.")]
             ["Diabetes Overview"; "Diabetes Overview"] RuntimeError
             ([] ++ [question]) eq_refl);
    [reflexivity|by repeat constructor|reflexivity].
Defined.

End QueryLoopMoreExamples.

(** ** The data pipeline as a whole *)

Section DataPipeline.
Import DataHandler Pipeline.
Context {vector : Type}.
Variable embed_text : string → vector.
Variable clean_data_path : string.
Implicit Types (st : @state vector).

Abbreviation pipeline :=
  (__traverse_data_pipeline embed_text clean_data_path).

Lemma clean_file_ok_no_raise st file st' :
  clean_file st file = Ok st' → raises (source st) file = false.
Proof.
  unfold clean_file, raises.
  destruct (dispatch (source st) file) as [[log [x|e]]|]; done.
Qed.

Lemma clean_files_ok_no_raise files st st' :
  clean_files (Ok st) files = Ok st' →
  ∀ file, In file files → raises (source st) file = false.
Proof.
  revert st. induction files as [|f files IH]; intros st H file; [done|].
  simpl in H.
  destruct (clean_file_outcome st f) as [(st1 & E & Hs & _)|(e & E & _)].
  - rewrite E in H. intros [<-|Hin].
    + by apply (clean_file_ok_no_raise st f st1).
    + rewrite <- Hs. by apply (IH st1).
  - rewrite E in H. exfalso. clear -H.
    induction files as [|f' files IH]; [done|]. by apply IH.
Qed.

Lemma clean_data_ok_no_raise st st' :
  clean_data st = Ok st' →
  ∀ file, In file (data st) → raises (source st) file = false.
Proof.
  intros H.
  exact (clean_files_ok_no_raise (data st)
           (DataHandler.print "Cleaning data..." st) st' H).
Qed.

(** X15.  Without the cleaning step the pipeline touches neither the source
    tree nor the cleaned-data directory; when vectorising is switched off
    as well, all it does is load the artifact, and it fails if there is
    none. *)
Theorem pipeline_without_cleaning src cl :
  (∀ vf v st', pipeline src cl vf false v = Ok st' →
               source st' = src ∧ cleaned st' = cl)
  ∧ pipeline src cl None false false
    = Raise (FileNotFoundError "vectorized_data.json")
  ∧ ∀ members, ∃ st',
      pipeline src cl (Some members) false false = Ok st'
      ∧ vectorized_data st' = json_load members.
Proof.
  split; [|split].
  - intros vf v st'. unfold __traverse_data_pipeline. cbn [Py.bind].
    destruct v.
    + destruct (vectorize_data embed_text clean_data_path (init src cl vf))
        as [[st1 m]|e] eqn:E; [|done].
      cbn [Py.bind fst]. intros [= <-].
      apply vectorize_data_ok in E as (_ & -> & _).
      by destruct (after_vectorize_fields embed_text clean_data_path
                     (init src cl vf)) as (_ & -> & -> & _).
    + unfold load_vectorized_data. cbn [vector_file init].
      destruct vf as [members|]; [|done]. by intros [= <-].
  - reflexivity.
  - intros members. by eexists.
Qed.

(** X16.  With both steps switched on, on a tree whose paths are distinct, a
    pipeline that returns and has extracted at least one document leaves
    embeddings under exactly the titles extracted from the accepted files,
    [.gitkeep] apart, and the files that discovery deletes are gone. *)
Theorem pipeline_embeds_extracted_titles src cl vf st' :
  NoDup (paths src) →
  pipeline src cl vf true true = Ok st' →
  (∃ file k text, In file (kept_paths src)
                  ∧ outcome (prune src) file = Some (k, text)) →
  (∀ k, is_Some (vectorized_data st' !! k)
        ↔ k ≠ ".gitkeep"
          ∧ ∃ file text, In file (kept_paths src)
                         ∧ outcome (prune src) file = Some (k, text))
  ∧ source st' = prune src.
Proof.
  intros Hnd Hrun (file0 & k0 & text0 & Hin0 & Hout0).
  unfold __traverse_data_pipeline in Hrun.
  set (st0 := init (vector:=vector) src cl vf) in *.
  destruct (load_data_effect st0) as (Hdata & Hsrc & Hdict & Hvec).
  change (data st0) with (@nil string) in Hdata. simpl in Hdata.
  change (source st0) with src in Hdata, Hsrc.
  change (data_dict st0) with (∅ : gmap string string) in Hdict.
  change (vectorized_data st0) with (∅ : gmap string vector) in Hvec.
  rewrite (remove_deleted_is_prune _ Hnd) in Hsrc.
  destruct (clean_data (load_data st0)) as [st1|e] eqn:Hclean; [|done].
  cbn [Py.bind] in Hrun.
  destruct (clean_data_effect (load_data st0)
              (clean_data_ok_no_raise _ _ Hclean))
    as (st1' & E & Hdd1 & _ & Hs1 & Hv1).
  rewrite Hclean in E. injection E as <-.
  rewrite Hdata, Hsrc, Hdict in Hdd1. rewrite Hsrc in Hs1.
  rewrite Hvec in Hv1.
  destruct (vectorize_data embed_text clean_data_path st1)
    as [[st2 m]|e] eqn:Hvz; [|done].
  cbn [Py.bind fst] in Hrun. injection Hrun as <-.
  apply vectorize_data_ok in Hvz as (_ & -> & _).
  assert (Hne : data_dict st1 ≠ ∅).
  { intros E.
    assert (H : is_Some (data_dict st1 !! k0)).
    { rewrite Hdd1. apply record_run_keys. right. by exists file0, text0. }
    rewrite E, lookup_empty in H. by destruct H. }
  assert (Hw : working_dict st1 = data_dict st1).
  { unfold working_dict. by destruct (decide (data_dict st1 = ∅)). }
  split.
  - intros k. rewrite after_vectorize_lookup, Hw, Hv1, lookup_empty.
    assert (Hkeys : is_Some (data_dict st1 !! k)
                    ↔ ∃ file text, In file (kept_paths src)
                        ∧ outcome (prune src) file = Some (k, text)).
    { rewrite Hdd1, record_run_keys, lookup_empty. split.
      - intros [[? ?]|H]; done.
      - intros H. by right. }
    destruct (data_dict st1 !! k) as [text|] eqn:Ek.
    + destruct (String.eqb k ".gitkeep") eqn:Eg.
      * apply String.eqb_eq in Eg. split; [by intros [? ?]|by intros [? _]].
      * apply String.eqb_neq in Eg. split.
        -- intros _. split; [done|]. apply Hkeys. by eexists.
        -- intros _. by eexists.
    + split; [by intros [? ?]|].
      intros [_ H]. apply Hkeys in H. by destruct H.
  - destruct (after_vectorize_fields embed_text clean_data_path st1)
      as (_ & -> & _). exact Hs1.
Qed.

End DataPipeline.

Section DataPipelineExamples.
Import DataHandler Pipeline.

Lemma pipeline_without_cleaning_witness :
  ∃ st', __traverse_data_pipeline String.length "cleaned" upper_tree []
           (Some [("Asthma", 17)]) false false = Ok st'
         ∧ source st' = upper_tree
         ∧ vectorized_data st' !! "Asthma" = Some 17.
Proof.
  destruct (proj2 (proj2 (pipeline_without_cleaning String.length "cleaned"
                            upper_tree [])) [("Asthma", 17)])
    as (st' & Hrun & Hv).
  exists st'. split; [exact Hrun|]. split.
  - exact (proj1 (proj1 (pipeline_without_cleaning String.length "cleaned"
                           upper_tree []) _ _ _ Hrun)).
  - rewrite Hv. reflexivity.
Defined.

Lemma colon_tree_distinct : NoDup (paths colon_tree).
Proof. apply (bool_decide_unpack _). vm_compute. exact I. Defined.

Lemma pipeline_embeds_extracted_titles_witness :
  ∃ st', __traverse_data_pipeline String.length "cleaned" colon_tree []
           None true true = Ok st'
         ∧ is_Some (vectorized_data st' !! "n:1").
Proof.
  assert (Hrun : ∃ st', __traverse_data_pipeline String.length "cleaned"
                          colon_tree [] None true true = Ok st')
    by (eexists; vm_compute; reflexivity).
  destruct Hrun as (st' & Hrun). exists st'. split; [exact Hrun|].
  assert (Hex : ∃ file k text,
             In file (kept_paths colon_tree)
             ∧ outcome (prune colon_tree) file = Some (k, text)).
  { exists "data/n:1.txt", "n:1", "first". split; [by left|reflexivity]. }
  apply (proj1 (pipeline_embeds_extracted_titles String.length "cleaned"
                  colon_tree [] None st' colon_tree_distinct Hrun Hex)).
  split; [discriminate|].
  exists "data/n:1.txt", "first". split; [by left|reflexivity].
Defined.

End DataPipelineExamples.

(** ** The command line flags of [pipeline.py] *)

Module Cli.

(** The [type] of both flags: [lambda x: x.lower() == "true"]. *)
Definition parse_flag (x : string) : bool :=
  String.eqb (Py.lower x) "true".

(** [args.clean_data] (and [args.vectorize_data]): the parsed value when
    the flag is given, the default [True] when it is not. *)
Definition flag (given : option string) : bool :=
  match given with
  | Some x => parse_flag x
  | None => true
  end.

(** The module-level variable set from it. *)
Definition setting (given : option string) : bool :=
  if flag given then true else false.

End Cli.

Section Flags.

Definition either_case (lo up : ascii) : list ascii := [lo; up].

(** The sixteen ways to write [true] in upper and lower case. *)
Definition true_spellings : list string :=
  c1 ← either_case "t" "T"; c2 ← either_case "r" "R";
  c3 ← either_case "u" "U"; c4 ← either_case "e" "E";
  [String c1 (String c2 (String c3 (String c4 EmptyString)))].

Lemma lower_char_inv (c lo up : ascii) :
  In (lo, up) [("t", "T"); ("r", "R"); ("u", "U"); ("e", "E")]%char →
  lower_char c = lo → c = lo ∨ c = up.
Proof.
  intros [[= <- <-]|[[= <- <-]|[[= <- <-]|[[= <- <-]|[]]]]];
    destruct c as [[] [] [] [] [] [] [] []]; vm_compute; intros H;
    try discriminate H; auto.
Qed.

(** X22.  A flag switches its step on only when it is left out or given as
    [true] in some mix of cases; any other value, such as [1], [yes] or
    [true] with a space, switches the step off without a complaint. *)
Theorem flag_is_on_only_for_true given :
  Cli.setting given = true
  ↔ given = None ∨ ∃ x, given = Some x ∧ In x true_spellings.
Proof.
  unfold Cli.setting, Cli.flag, Cli.parse_flag.
  destruct given as [x|]; [|split; [by left|done]].
  split.
  - intros H. right. exists x. split; [done|].
    destruct (String.eqb (lower x) "true") eqn:E; [|done].
    apply String.eqb_eq in E.
    destruct x as [|c1 [|c2 [|c3 [|c4 [|c5 x]]]]]; try discriminate E.
    simpl in E. injection E as E1 E2 E3 E4.
    apply (lower_char_inv c1 "t" "T") in E1; [|simpl; auto].
    apply (lower_char_inv c2 "r" "R") in E2; [|simpl; auto].
    apply (lower_char_inv c3 "u" "U") in E3; [|simpl; auto 6].
    apply (lower_char_inv c4 "e" "E") in E4; [|simpl; auto 6].
    destruct E1 as [->| ->], E2 as [->| ->], E3 as [->| ->], E4 as [->| ->];
      vm_compute; auto 20.
  - intros [?|(y & [= <-] & Hin)]; [done|].
    vm_compute in Hin.
    repeat (destruct Hin as [<-|Hin]; [reflexivity|]). destruct Hin.
Qed.

Lemma flag_is_on_only_for_true_witness :
  Cli.setting (Some "TRUE") = true ∧ Cli.setting (Some "yes") = false
  ∧ Cli.setting (Some "1") = false ∧ Cli.setting (Some " true") = false.
Proof.
  split.
  - apply (proj2 (flag_is_on_only_for_true (Some "TRUE"))).
    right. exists "TRUE". split; [reflexivity|]. vm_compute. auto 20.
  - repeat split.
Defined.

End Flags.

(** ** The PDF passes: what they leave alone *)

Section PdfPasses.
Import DataHandler Re.

(** Nowhere in the text does a word character follow a hyphen and a
    newline. *)
Fixpoint no_break (s : string) : bool :=
  negb (starts_with_break s)
  && match s with
     | String _ s' => no_break s'
     | EmptyString => true
     end.

Lemma word_run_no_break_at_all s :
  no_break s = true → word_run break_tail s = None.
Proof.
  induction s as [|c s IH]; [done|].
  cbn [no_break]. intros [_ Hs]%andb_prop.
  rewrite word_run_cons. destruct (is_word c); [|done].
  rewrite (IH Hs). rewrite break_tail_none; [done|].
  destruct s as [|d s]; [done|].
  cbn [no_break] in Hs. apply andb_prop in Hs as [Hb _].
  by apply negb_true_iff in Hb.
Qed.

Lemma hyphen_scan_no_break prev s :
  no_break s = true → sub_from hyphen_break joined prev 0 s = s.
Proof.
  revert prev. induction s as [|c s IH]; intros prev H; [done|].
  rewrite sub_from_no_match.
  - f_equal. apply IH. cbn [no_break] in H. by apply andb_prop in H as [_ H].
  - unfold hyphen_break. rewrite match_here_word_plus. fold break_tail.
    by rewrite (word_run_no_break_at_all _ H).
Qed.

Lemma no_hyphen_no_break s :
  all_chars (fun c => negb (Ascii.eqb c "-")) s = true → no_break s = true.
Proof.
  induction s as [|c s IH]; [done|].
  cbn [all_chars no_break]. intros [Hc Hs]%andb_prop.
  rewrite (IH Hs), andb_true_r. apply negb_true_iff.
  apply negb_true_iff in Hc.
  destruct s as [|b [|d s]]; try done. cbn [starts_with_break].
  by rewrite Hc.
Qed.

Lemma no_newline_no_break s :
  all_chars (fun c => negb (Ascii.eqb c LF)) s = true → no_break s = true.
Proof.
  induction s as [|c s IH]; [done|].
  cbn [all_chars no_break]. intros [Hc Hs]%andb_prop.
  rewrite (IH Hs), andb_true_r. apply negb_true_iff.
  destruct s as [|b [|d s]]; try done. cbn [starts_with_break].
  cbn [all_chars] in Hs. apply andb_prop in Hs as [Hb%negb_true_iff _].
  by rewrite Hb, andb_false_r.
Qed.

(** X23.  The hyphen pass returns unchanged a text in which no word character
    follows a hyphen and a newline; in particular any text without a
    hyphen and any text without a newline. *)
Theorem fix_hyphens_leaves_plain_text s :
  (no_break s = true → fix_hyphens s = s)
  ∧ (all_chars (fun c => negb (Ascii.eqb c "-")) s = true → fix_hyphens s = s)
  ∧ (all_chars (fun c => negb (Ascii.eqb c LF)) s = true → fix_hyphens s = s).
Proof.
  assert (H : no_break s = true → fix_hyphens s = s)
    by apply hyphen_scan_no_break.
  split; [exact H|]. split; intros Hs; apply H.
  - by apply no_hyphen_no_break.
  - by apply no_newline_no_break.
Qed.

Lemma fix_hyphens_leaves_plain_text_witness :
  fix_hyphens "well-known, state-of-the-art" = "well-known, state-of-the-art".
Proof.
  apply (proj2 (proj2 (fix_hyphens_leaves_plain_text
                         "well-known, state-of-the-art"))).
  reflexivity.
Defined.

(** *** A second unwrapping changes nothing *)

Lemma wrap_first prev s :
  first_char s = Some LF → is_lf prev = true →
  first_char (sub_from line_wrap spaced prev 0 s) = Some LF.
Proof.
  destruct s as [|c s]; [done|]. intros H Hp.
  cbn [first_char] in H. injection H as ->.
  rewrite wrap_step. unfold isolated_newline. rewrite Hp.
  cbn [negb first_char]. by rewrite andb_false_r.
Qed.

Lemma wrap_twice prev prev' s :
  (first_char s = Some LF → is_lf prev' = is_lf prev) →
  sub_from line_wrap spaced prev' 0 (sub_from line_wrap spaced prev 0 s)
  = sub_from line_wrap spaced prev 0 s.
Proof.
  revert prev prev'. induction s as [|c s IH]; intros prev prev' Hp; [done|].
  rewrite wrap_step.
  set (c' := if isolated_newline prev c (first_char s) then " "%char else c).
  rewrite wrap_step. f_equal.
  - (* the character is kept by the second pass *)
    unfold isolated_newline.
    destruct (Ascii.eqb c' LF) eqn:Ec'; [|done].
    assert (Hc : c = LF ∧ isolated_newline prev c (first_char s) = false).
    { unfold c' in Ec'.
      destruct (isolated_newline prev c (first_char s)); [done|].
      by apply Ascii.eqb_eq in Ec'. }
    destruct Hc as [-> Hiso]. unfold isolated_newline in Hiso.
    rewrite Ascii.eqb_refl in Hiso. simpl in Hiso.
    rewrite (Hp eq_refl).
    destruct (is_lf prev) eqn:Hprev; [done|]. simpl in Hiso. simpl.
    apply negb_false_iff in Hiso.
    assert (Hnext : first_char s = Some LF).
    { destruct (first_char s) as [d|]; [|done]. simpl in Hiso.
      by apply Ascii.eqb_eq in Hiso as ->. }
    rewrite (wrap_first (Some LF) s Hnext); [|reflexivity].
    unfold c'. unfold isolated_newline. rewrite Hprev, Hnext.
    reflexivity.
  - apply IH. intros Hnext. unfold c', isolated_newline.
    rewrite Hnext. change (negb (is_lf (Some LF))) with false.
    by rewrite andb_false_r.
Qed.

(** X24.  Unwrapping is idempotent: after one pass no newline stands alone, so
    a second pass finds nothing to replace. *)
Theorem unwrap_lines_idempotent s :
  unwrap_lines (unwrap_lines s) = unwrap_lines s.
Proof. unfold unwrap_lines, sub. by apply wrap_twice. Qed.

(** *** The hyphen pass only takes out hyphens and newlines *)

(** Neither a hyphen nor a newline. *)
Definition other_char (c : ascii) : bool :=
  negb (Ascii.eqb c "-") && negb (Ascii.eqb c LF).

Fixpoint str_drop (n : nat) (s : string) : string :=
  match n, s with
  | S k, String _ s' => str_drop k s'
  | _, _ => s
  end.

Lemma str_drop_app a b : str_drop (String.length a) (a +:+ b) = b.
Proof.
  induction a as [|c a IH]; [by destruct b|]. by rewrite append_cons.
Qed.

Lemma filter_chars_app p (a b : string) :
  filter_chars p (a +:+ b) = filter_chars p a +:+ filter_chars p b.
Proof.
  induction a as [|c a IH]; [done|]. rewrite append_cons. simpl.
  destruct (p c); [rewrite append_cons|]; by rewrite IH.
Qed.

Lemma word_run_end_inv s w gs n :
  word_run [] s = Some (w, gs, n) →
  gs = [] ∧ n = String.length w ∧ ∃ rest, s = w +:+ rest.
Proof.
  revert w gs n. induction s as [|d s IH]; intros w gs n; [done|].
  rewrite word_run_cons. destruct (is_word d); [|done].
  destruct (word_run [] s) as [[[w' gs'] n']|] eqn:E.
  - intros [= <- <- <-]. destruct (IH _ _ _ eq_refl) as (-> & -> & rest & ->).
    repeat split. by exists rest.
  - simpl. intros [= <- <- <-]. repeat split. by exists s.
Qed.

Lemma match_here_lit_ne c d p' prev s :
  Ascii.eqb c d = false → match_here (Lit c :: p') prev (String d s) = None.
Proof. intros H. simpl. by rewrite H. Qed.

Lemma break_tail_inv prev s gs n :
  match_here break_tail prev s = Some (gs, n) →
  ∃ w2 rest, gs = [w2] ∧ s = String "-" (String LF (w2 +:+ rest))
             ∧ n = 2 + String.length w2.
Proof.
  unfold break_tail. destruct s as [|a s]; [done|].
  destruct (Ascii.eqb "-" a) eqn:Ea;
    [|by rewrite (match_here_lit_ne _ _ _ _ _ Ea)].
  apply Ascii.eqb_eq in Ea. subst a. rewrite match_here_lit.
  destruct s as [|b s]; [done|].
  destruct (Ascii.eqb LF b) eqn:Eb;
    [|by rewrite (match_here_lit_ne _ _ _ _ _ Eb)].
  apply Ascii.eqb_eq in Eb. subst b.
  rewrite match_here_lit, match_here_word_plus.
  destruct (word_run [] s) as [[[w gs'] n']|] eqn:E; [|done].
  apply word_run_end_inv in E as (-> & -> & rest & ->).
  intros [= <- <-]. by exists w, rest.
Qed.

Lemma word_run_break_inv s w gs n :
  word_run break_tail s = Some (w, gs, n) →
  ∃ w2 rest, gs = [w2]
    ∧ s = w +:+ String "-" (String LF (w2 +:+ rest))
    ∧ n = String.length w + (2 + String.length w2).
Proof.
  revert w gs n. induction s as [|d s IH]; intros w gs n; [done|].
  rewrite word_run_cons. destruct (is_word d); [|done].
  destruct (word_run break_tail s) as [[[w' gs'] n']|] eqn:E.
  - intros [= <- <- <-].
    destruct (IH _ _ _ eq_refl) as (w2 & rest & -> & -> & ->).
    by exists w2, rest.
  - destruct (match_here break_tail (Some d) s) as [[gs' n']|] eqn:E';
      [|done].
    intros [= <- <- <-].
    apply break_tail_inv in E' as (w2 & rest & -> & -> & ->).
    by exists w2, rest.
Qed.

Lemma expand_joined w1 w2 : expand joined [w1; w2] = w1 +:+ w2.
Proof.
  change (expand joined [w1; w2]) with (w1 +:+ (w2 +:+ EmptyString)).
  by rewrite append_nil_r.
Qed.

Lemma hyphen_scan_keeps_others prev skip s :
  filter_chars other_char (sub_from hyphen_break joined prev skip s)
  = filter_chars other_char (str_drop skip s).
Proof.
  revert prev skip. induction s as [|c s IH]; intros prev skip.
  { by destruct skip. }
  destruct skip as [|k]; [|apply IH].
  cbn [sub_from str_drop].
  change (match_here hyphen_break prev (String c s))
    with (match word_run break_tail (String c s) with
          | Some (w, gs, n) => Some (w :: gs, n)
          | None => None
          end).
  destruct (word_run break_tail (String c s)) as [[[w gs] n]|] eqn:E.
  - apply word_run_break_inv in E as (w2 & rest & -> & Hs & ->).
    destruct w as [|c0 w].
    + rewrite append_nil in Hs. injection Hs as -> ->.
      cbn [String.length Nat.add].
      rewrite expand_joined, append_nil, filter_chars_app.
      rewrite (IH (Some "-"%char) (S (String.length w2))).
      cbn [str_drop]. rewrite str_drop_app.
      change (filter_chars other_char (String "-" (String LF (w2 +:+ rest))))
        with (filter_chars other_char (w2 +:+ rest)).
      by rewrite filter_chars_app.
    + rewrite append_cons in Hs. injection Hs as <- ->.
      cbn [String.length Nat.add].
      rewrite expand_joined, !filter_chars_app.
      rewrite (IH (Some c)).
      replace (w +:+ String "-" (String LF (w2 +:+ rest)))
        with ((w +:+ String "-" (String LF w2)) +:+ rest)
        by (by rewrite append_assoc, !append_cons).
      replace (String.length w + S (S (String.length w2)))
        with (String.length (w +:+ String "-" (String LF w2)))
        by (rewrite length_append; simpl; lia).
      rewrite str_drop_app.
      rewrite <- (append_cons c (w +:+ String "-" (String LF w2)) rest).
      rewrite <- (append_cons c w (String "-" (String LF w2))).
      rewrite !filter_chars_app.
      change (filter_chars other_char (String "-" (String LF w2)))
        with (filter_chars other_char w2).
      done.
  - cbn [filter_chars]. by rewrite (IH (Some c) 0).
Qed.

(** X25.  The first pass takes out hyphens and newlines only: every other
    character of the text is still there, in the same order, and none is
    added. *)
Theorem fix_hyphens_keeps_other_characters s :
  filter_chars other_char (fix_hyphens s) = filter_chars other_char s.
Proof. unfold fix_hyphens, sub. by apply hyphen_scan_keeps_others. Qed.

End PdfPasses.

(** ** NXML: sections at any depth *)

Section NxmlDepth.
Import DataHandler.

(** Induction on an element with the property known for its children. *)
Fixpoint element_ind_all (P : Xml.element → Prop)
  (step : ∀ t a x cs, Forall P cs → P (Xml.Element t a x cs))
  (e : Xml.element) : P e :=
  match e with
  | Xml.Element t a x cs =>
      step t a x cs
        ((fix all (l : list Xml.element) : Forall P l :=
            match l with
            | [] => @List.Forall_nil _ P
            | c :: l' =>
                @List.Forall_cons _ P c l' (element_ind_all P step c) (all l')
            end) cs)
  end.

Lemma iter_self e : In e (Xml.iter e).
Proof. destruct e. by left. Qed.

Lemma descendants_in_iter e c : In c (Xml.descendants e) → In c (Xml.iter e).
Proof. destruct e. intros H. by right. Qed.

Lemma children_of_iter root p c :
  In p (Xml.iter root) → In c (Xml.children p) → In c (Xml.descendants root).
Proof.
  revert p c. induction root as [t a x cs IH] using element_ind_all.
  intros p c Hp Hc. unfold Xml.descendants. cbn [Xml.children].
  destruct Hp as [<-|Hp].
  - cbn [Xml.children] in Hc. apply in_flat_map. exists c.
    split; [done|apply iter_self].
  - apply in_flat_map in Hp as (ch & Hch & Hp).
    apply in_flat_map. exists ch. split; [done|].
    apply descendants_in_iter.
    rewrite Forall_forall in IH.
    apply (IH ch (proj2 (list_elem_of_In _ _) Hch) p c Hp Hc).
Qed.

(** X26.  A section that declares a type other than the excluded one adds its
    text to the document wherever it stands below the root, also inside a
    section of the excluded type or without a type: exclusion is not
    passed on to nested sections. *)
Theorem typed_section_counts_at_any_depth root :
  (∀ c, In c (Xml.children root) → In c (Xml.descendants root))
  ∧ (∀ p c, In p (Xml.descendants root) → In c (Xml.children p) →
            In c (Xml.descendants root))
  ∧ (∀ sec, In sec (Xml.descendants root) →
            Xml.tag sec = "sec" → qualifies sec = true →
            ∃ pre post,
              nxml_text root = pre +:+ section_text sec +:+ post).
Proof.
  split; [|split].
  - intros c Hc. apply (children_of_iter root root c); [apply iter_self|done].
  - intros p c Hp Hc.
    apply (children_of_iter root p c); [by apply descendants_in_iter|done].
  - intros sec Hin Htag Hq. rewrite nxml_text_spec. unfold document_text.
    assert (H : In sec (List.filter qualifies (Xml.findall_desc "sec" root))).
    { apply filter_In. split; [|done]. apply filter_In. split; [done|].
      unfold Xml.has_tag. rewrite Htag. reflexivity. }
    apply in_split in H as (l1 & l2 & ->).
    exists (concat_all (map section_text l1)),
      (concat_all (map section_text l2)).
    by rewrite map_app, concat_all_app.
Qed.

(** An article whose only typed section sits inside an excluded one. *)
Definition inner_section : Xml.element :=
  Xml.Element "sec" [("sec-type", "Treatment")] None
    [Xml.Element "p" [] (Some "Inhaled steroids.") []].

Definition nested_article : Xml.element :=
  Xml.Element "article" [] None
    [Xml.Element "title-group" [] None
       [Xml.Element "title" [] (Some "Asthma") []];
     Xml.Element "sec" [("sec-type", "Continuing Education Activity")] None
       [Xml.Element "p" [] (Some "Objectives") []; inner_section]].

Lemma typed_section_counts_at_any_depth_witness :
  ∃ pre post,
    nxml_text nested_article
    = pre +:+ ("Inhaled steroids." +:+ nl) +:+ post.
Proof.
  apply (proj2 (proj2 (typed_section_counts_at_any_depth nested_article))
           inner_section); [|reflexivity|reflexivity].
  simpl. right. right. right. right. by left.
Defined.

End NxmlDepth.

(** ** Cleaning: files left by earlier runs *)

Section EarlierRuns.
Import DataHandler.
Context {vector : Type}.
Implicit Types (st : @state vector).

Lemma store_run_other (out : string → option (string * string))
  files fs name :
  (∀ f k x, In f files → out f = Some (k, x) →
            sanitize k +:+ ".txt" ≠ name) →
  assoc name (foldl (fun fs f => store fs (out f)) fs files) = assoc name fs.
Proof.
  revert fs. induction files as [|f files IH]; intros fs Hno; [done|].
  simpl. rewrite IH by (intros f' k x Hf'; apply Hno; by right).
  destruct (out f) as [[title text]|] eqn:E; [|done]. simpl.
  rewrite assoc_write.
  destruct (String.eqb (sanitize title +:+ ".txt") name) eqn:E'; [|done].
  apply String.eqb_eq in E'. exfalso. eapply Hno; [by left|done|done].
Qed.

(** X11.  A file of the cleaned-data directory that is not named after the
    sanitised title of a document of this run is neither removed nor
    changed by [clean_data]: what earlier runs wrote stays, and the
    fallback of [vectorize_data] will read it. *)
Theorem clean_data_keeps_other_cleaned_files st st' name :
  clean_data st = Ok st' →
  (∀ file k text, In file (data st) →
     outcome (source st) file = Some (k, text) →
     sanitize k +:+ ".txt" ≠ name) →
  assoc name (cleaned st') = assoc name (cleaned st).
Proof.
  intros Hrun Hno.
  destruct (clean_data_effect st (clean_data_ok_no_raise _ _ Hrun))
    as (st1 & E & _ & Hc & _).
  rewrite Hrun in E. injection E as <-. rewrite Hc.
  by apply store_run_other.
Qed.

End EarlierRuns.

Section EarlierRunsExamples.
Import DataHandler.

(** The two text files of [colon_tree], found by a handler whose
    cleaned-data directory still holds a file of an earlier run. *)
Definition later_run : @state unit :=
  load_data (init colon_tree [("Retired.txt", "old text")] None).

Lemma clean_data_keeps_other_cleaned_files_witness :
  ∃ st', clean_data later_run = Ok st'
         ∧ assoc "Retired.txt" (cleaned st') = Some "old text".
Proof.
  assert (Hrun : ∃ st', clean_data later_run = Ok st')
    by (eexists; vm_compute; reflexivity).
  destruct Hrun as (st' & Hrun). exists st'. split; [exact Hrun|].
  rewrite (clean_data_keeps_other_cleaned_files later_run st' "Retired.txt"
             Hrun); [reflexivity|].
  intros file k text [<-|[<-|[]]] [= <- <-]; discriminate.
Defined.

End EarlierRunsExamples.
